(** * Realtime AI scraper backend: the retrieval pipeline of [backend/server.py]

    A shallow embedding of the request pipeline

        question -> get_links_from_serpapi -> scrape_links -> query_gemini

    together with the orchestrating handler [handle_query].  The outside
    world (search API, headless browser, language-model API) is a record of
    oracles; the Python code becomes a computation in a small monad that
    threads the log of outbound calls and the accumulator [extracted], and
    that knows Python's two non-local exits used by the source: a raised
    exception and the [continue] of the URL loop. *)

From Stdlib Require Import List ZArith NArith Lia Bool String Ascii.
From Stdlib Require Import DecimalString SpecFloat.
Import ListNotations.

Set Implicit Arguments.

(* ================================================================== *)
(** * Text: Python [str] as a sequence of Unicode code points *)
(* ================================================================== *)

Module Text.

Definition char := N.
Definition str := list char.

(** An ASCII literal of the source. *)
Definition lit (s : string) : str := map N_of_ascii (list_ascii_of_string s).

(** [str.isspace] for one character: the code points CPython classifies as
    whitespace, which are the ones [str.strip()] removes. *)
Definition isspace (c : char) : bool :=
  (((9 <=? c) && (c <=? 13)) || ((28 <=? c) && (c <=? 32))
   || (c =? 133) || (c =? 160) || (c =? 5760)
   || ((8192 <=? c) && (c <=? 8202))
   || (c =? 8232) || (c =? 8233) || (c =? 8239) || (c =? 8287)
   || (c =? 12288))%N.

Fixpoint lstrip (s : str) : str :=
  match s with
  | c :: t => if isspace c then lstrip t else s
  | [] => []
  end.

Definition rstrip (s : str) : str := rev (lstrip (rev s)).

(** [s.strip()] *)
Definition strip (s : str) : str := rstrip (lstrip s).

(** [s.startswith(p)] *)
Fixpoint startswith (s p : str) : bool :=
  match p, s with
  | [], _ => true
  | _ :: _, [] => false
  | a :: p', b :: s' => (a =? b)%N && startswith s' p'
  end.

(** Truth value of a string: non-empty. *)
Definition nonempty (s : str) : bool :=
  match s with [] => false | _ :: _ => true end.

Fixpoint str_eqb (a b : str) : bool :=
  match a, b with
  | [], [] => true
  | x :: a', y :: b' => (x =? y)%N && str_eqb a' b'
  | _, _ => false
  end.

(** [s.lower()] on the ASCII letters.  The source lowers only the tag name
    of an element and compares the result with ["a"]; the one other code
    point that Unicode lowers to U+0061 is U+0041, so the comparison is
    exact. *)
Definition lower_char (c : char) : char :=
  if ((65 <=? c) && (c <=? 90))%N then (c + 32)%N else c.
Definition lower (s : str) : str := map lower_char s.

(** [sep.join(parts)] *)
Fixpoint join (sep : str) (parts : list str) : str :=
  match parts with
  | [] => []
  | [p] => p
  | p :: rest => p ++ sep ++ join sep rest
  end.

(** Decimal rendering of an integer, as an f-string renders an [int]. *)
Definition decimal (z : Z) : str := lit (NilZero.string_of_int (Z.to_int z)).

(** The pictographs of the source's messages, by code point. *)
Definition cross_mark : str := [10060%N].                 (* U+274C *)
Definition warning_sign : str := [9888%N; 65039%N].       (* U+26A0 U+FE0F *)

End Text.
Import Text.

(* ================================================================== *)
(** * Python values that travel through the pipeline (parsed JSON) *)
(* ================================================================== *)

#[warnings="-register-all"]
Inductive pyval : Type :=
| PNone
| PBool (b : bool)
| PInt (z : Z)
| PFloat (f : spec_float)
| PStr (s : str)
| PList (l : list pyval)
| PDict (d : list (str * pyval)).

(** Python truth value, as tested by [if not question] and [if r.get(..)]. *)
Definition truthy (v : pyval) : bool :=
  match v with
  | PNone => false
  | PBool b => b
  | PInt z => negb (z =? 0)%Z
  | PFloat (S754_zero _) => false
  | PFloat _ => true
  | PStr s => nonempty s
  | PList l => match l with [] => false | _ => true end
  | PDict d => match d with [] => false | _ => true end
  end.

(** Lookup in a dict (keys of a parsed JSON object are distinct strings). *)
Fixpoint lookup (k : str) (d : list (str * pyval)) : option pyval :=
  match d with
  | [] => None
  | (k', v) :: d' => if str_eqb k k' then Some v else lookup k d'
  end.

(** [l[:n]] on a list: a negative bound counts from the end. *)
Definition slice_to (A : Type) (n : Z) (l : list A) : list A :=
  if (0 <=? n)%Z then firstn (Z.to_nat n) l
  else firstn (Z.to_nat (Z.of_nat (List.length l) + n)) l.

(* ================================================================== *)
(** * Exceptions *)
(* ================================================================== *)

Inductive exn : Type :=
(* selenium.common.exceptions *)
| TimeoutException
| WebDriverException
| NoSuchElementException
| StaleElementReferenceException
(* requests / urllib3 *)
| ConnectionError
| HTTPError (status : Z)
| JSONDecodeError
(* raised by the interpreter *)
| KeyError (key : pyval)
| IndexError
| TypeError
| AttributeError.

(** [isinstance(e, (TimeoutException, WebDriverException))]: every Selenium
    exception derives from [WebDriverException]. *)
Definition is_WebDriverException (e : exn) : bool :=
  match e with
  | TimeoutException | WebDriverException
  | NoSuchElementException | StaleElementReferenceException => true
  | _ => false
  end.

(** Every exception above derives from [Exception]; a bare [except:] and
    [except Exception] catch them all.  Interrupts of the interpreter
    ([KeyboardInterrupt], [SystemExit]) are not part of the model. *)
Definition any_exception (e : exn) : bool := true.

(** Result of an operation that may raise. *)
Inductive res (A : Type) : Type :=
| Ok (a : A)
| Err (e : exn).
Arguments Ok {A} a.
Arguments Err {A} e.

(* ================================================================== *)
(** * The outside world *)
(* ================================================================== *)

(** What [requests] hands back: the status code and what [resp.json()]
    gives (it raises on a body that is not JSON). *)
Record response : Type := {
  status_code : Z;
  json : res pyval
}.

(** [resp.raise_for_status()]: raises [HTTPError] for a 4xx or 5xx status
    and for no other. *)
Definition raise_for_status (r : response) : res unit :=
  if ((400 <=? status_code r) && (status_code r <? 600))%Z
  then Err (HTTPError (status_code r)) else Ok tt.

(** A [WebElement]: every read is a round trip to the browser and may raise. *)
Record element : Type := {
  elem_tag_name : res str;              (* el.tag_name *)
  elem_text : res str;                  (* el.text *)
  elem_href : res (option str)          (* el.get_attribute("href") *)
}.

(** One optional sub-element of a listing card, as the source probes it:
    [cafe.find_elements(By.CLASS_NAME, c)] and then
    [cafe.find_element(By.CLASS_NAME, c)]. *)
Record subfield : Type := {
  sub_find_elements : res (list element);
  sub_find_element : res element
}.

Record card : Type := {
  card_name : subfield;                 (* "sc-1hp8d8a-0" *)
  card_category : subfield;             (* "fSxdnq" *)
  card_price : subfield                 (* "KXcjT" *)
}.

Record row : Type := {
  row_th : res (list element);          (* row.find_elements(By.TAG_NAME, "th") *)
  row_td : res (list element)           (* row.find_elements(By.TAG_NAME, "td") *)
}.

Record table : Type := {
  table_tr : res (list row)             (* table.find_elements(By.TAG_NAME, "tr") *)
}.

(** A loaded page, seen through the six [driver.find_elements] queries that
    [scrape_links] makes on it. *)
Record page : Type := {
  page_text_nodes : res (list element); (* //h1 | //h2 | //h3 | //p | //a *)
  page_cafes : res (list card);         (* class "sc-1q7bklc-10" *)
  page_names : res (list element);      (* h3...resultbox_title_anchor *)
  page_ratings : res (list element);    (* li.resultbox_totalrate *)
  page_addresses : res (list element);  (* div.locatcity *)
  page_tables : res (list table)        (* tag "table" *)
}.

(** Configuration and the three external services.
    [webdriver_Chrome] is the outcome of starting the browser and
    [set_page_load_timeout t] that of the command which configures the
    session just acquired.
    [chrome_get t n url] is the outcome of the [n]-th navigation of a browser
    session whose page-load timeout is [t].
    [str_of_value] and [str_of_exn] are what an f-string renders for a value
    that is not a string and for a caught exception. *)
Record env : Type := {
  SERPAPI_KEY : str;
  GEMINI_API_KEY : str;
  requests_get : str -> list (str * pyval) -> res response;
  requests_post : str -> pyval -> res response;
  webdriver_Chrome : res unit;
  set_page_load_timeout : Z -> res unit;
  chrome_get : Z -> nat -> pyval -> res page;
  str_of_value : pyval -> str;
  str_of_exn : exn -> str
}.

(** Outbound calls, in the order they are made. *)
Inductive event : Type :=
| HttpGet (url : str) (params : list (str * pyval))
| HttpPost (url : str) (payload : pyval)
| ChromeLaunch
| ChromeGet (url : pyval)
| ChromeQuit.

(* ================================================================== *)
(** * The monad of the embedding *)
(* ================================================================== *)

Record state : Type := {
  extracted : str;          (* the accumulator of [scrape_links] *)
  visits : nat;             (* navigations made by the browser session *)
  log : list event          (* outbound calls so far, oldest first *)
}.

Definition initial : state := {| extracted := []; visits := 0; log := [] |}.

(** How a block of statements ends. *)
Inductive signal (A : Type) : Type :=
| Done (a : A)              (* ran to its end *)
| Raised (e : exn)          (* an exception is propagating *)
| Continue.                 (* [continue] of the enclosing [for url in links] *)
Arguments Done {A} a.
Arguments Raised {A} e.
Arguments Continue {A}.

Definition M (A : Type) : Type := state -> signal A * state.

Definition ret (A : Type) (a : A) : M A := fun s => (Done a, s).

Definition bind (A B : Type) (m : M A) (k : A -> M B) : M B :=
  fun s =>
    match m s with
    | (Done a, s') => k a s'
    | (Raised e, s') => (Raised e, s')
    | (Continue, s') => (Continue, s')
    end.

Declare Scope py_scope.
Delimit Scope py_scope with py.
Notation "x <- m ;; k" := (bind m (fun x => k))
  (at level 100, m at next level, right associativity) : py_scope.
Notation "m ;; k" := (bind m (fun _ => k))
  (at level 100, right associativity) : py_scope.
Open Scope py_scope.

Definition raise (A : Type) (e : exn) : M A := fun s => (Raised e, s).
Definition continue_ (A : Type) : M A := fun s => (Continue, s).
Arguments raise {A} e.
Arguments continue_ {A}.

(** A call that may raise. *)
Definition lift (A : Type) (r : res A) : M A :=
  match r with Ok a => ret a | Err e => raise e end.

(** [try: body  except <catches>: handler] *)
Definition try_except (A : Type) (body : M A) (catches : exn -> bool)
    (handler : exn -> M A) : M A :=
  fun s =>
    match body s with
    | (Raised e, s') => if catches e then handler e s' else (Raised e, s')
    | r => r
    end.

(** [for x in l: body].  A [continue] in the body ends the iteration. *)
Fixpoint for_ (A : Type) (l : list A) (body : A -> M unit) : M unit :=
  match l with
  | [] => ret tt
  | x :: l' =>
      fun s =>
        match body x s with
        | (Done _, s') | (Continue, s') => for_ l' body s'
        | (Raised e, s') => (Raised e, s')
        end
  end.

(** [[f(x) for x in l]] *)
Fixpoint comprehension (A B : Type) (f : A -> M B) (l : list A) : M (list B) :=
  match l with
  | [] => ret []
  | x :: l' => y <- f x ;; ys <- comprehension f l' ;; ret (y :: ys)
  end.

(** [extracted += s] *)
Definition emit (s : str) : M unit :=
  fun st => (Done tt, {| extracted := extracted st ++ s;
                         visits := visits st; log := log st |}).

Definition record_call (ev : event) : M unit :=
  fun st => (Done tt, {| extracted := extracted st;
                         visits := visits st; log := log st ++ [ev] |}).

(** [[f(x) for x in l if cond(x)]]: the condition is evaluated first. *)
Fixpoint comprehension_if (A B : Type) (f : A -> M B) (cond : A -> M bool)
    (l : list A) : M (list B) :=
  match l with
  | [] => ret []
  | x :: l' =>
      c <- cond x ;;
      if c then y <- f x ;; ys <- comprehension_if f cond l' ;; ret (y :: ys)
      else comprehension_if f cond l'
  end.

(** Run a computation from the initial state. *)
Definition run (A : Type) (m : M A) : signal A * state := m initial.

(* ================================================================== *)
(** * Operations of the interpreter on values *)
(* ================================================================== *)

(** [v.get(k, default)]: only a dict has the method. *)
Definition dict_get (v : pyval) (k : str) (default : pyval) : res pyval :=
  match v with
  | PDict d => Ok (match lookup k d with Some x => x | None => default end)
  | _ => Err AttributeError
  end.

(** [v[:n]]: lists and strings can be sliced ([TypeError] otherwise; for a
    dict the interpreter raises [TypeError] or, from 3.12 on, [KeyError]). *)
Definition slice (v : pyval) (n : Z) : res pyval :=
  match v with
  | PList l => Ok (PList (slice_to n l))
  | PStr s => Ok (PStr (slice_to n s))
  | _ => Err TypeError
  end.

(** The items a [for] sees in a value. *)
Definition iterate (v : pyval) : res (list pyval) :=
  match v with
  | PList l => Ok l
  | PStr s => Ok (map (fun c => PStr [c]) s)
  | PDict d => Ok (map (fun kv => PStr (fst kv)) d)
  | _ => Err TypeError
  end.

(** [v[k]] for a string key. *)
Definition getitem_key (v : pyval) (k : str) : res pyval :=
  match v with
  | PDict d =>
      match lookup k d with Some x => Ok x | None => Err (KeyError (PStr k)) end
  | _ => Err TypeError
  end.

(** [v[0]] *)
Definition getitem_0 (v : pyval) : res pyval :=
  match v with
  | PList (x :: _) => Ok x
  | PList [] => Err IndexError
  | PStr (c :: _) => Ok (PStr [c])
  | PStr [] => Err IndexError
  | PDict _ => Err (KeyError (PInt 0))
  | _ => Err TypeError
  end.

(** [v.strip()]: only a string has the method. *)
Definition str_strip (v : pyval) : res str :=
  match v with
  | PStr s => Ok (strip s)
  | _ => Err AttributeError
  end.

(* ================================================================== *)
(** * The program *)
(* ================================================================== *)

(** [is_valid_text(text)], as a truth value. *)
Definition is_valid_text (text : str) : bool :=
  nonempty text
  && (0 <? List.length (strip text))%nat
  && negb (startswith (strip text) (lit "By ")).

(** The answer of the handler: [JSONResponse({"answer": a}, status_code=c)],
    or a returned dict [{"answer": a}], which the framework sends with 200. *)
Record reply : Type := {
  reply_status : Z;
  reply_answer : str
}.

Definition missing_question : reply :=
  {| reply_status := 400;
     reply_answer := warning_sign ++ lit " Missing 'question' in request." |}.

Definition no_search_results : reply :=
  {| reply_status := 200;
     reply_answer := cross_mark ++ lit " No search results found." |}.

Definition no_content_extracted : reply :=
  {| reply_status := 200;
     reply_answer :=
       cross_mark ++ lit " No content extracted from search results." |}.

Definition newline : str := [10%N].
Definition tab : str := [9%N].

Section Server.

Variable E : env.

(* ------------------------------------------------------------------ *)
(** ** Search Resolver *)

Definition serpapi_url : str := lit "https://serpapi.com/search.json".

Definition serpapi_params (query : pyval) (api_key : str) (max_results : Z)
    : list (str * pyval) :=
  [ (lit "engine", PStr (lit "google"));
    (lit "q", query);
    (lit "api_key", PStr api_key);
    (lit "num", PInt max_results);
    (lit "gl", PStr (lit "IN"));
    (lit "hl", PStr (lit "en"));
    (lit "location", PStr (lit "India")) ].

Definition get_links_from_serpapi (query : pyval) (api_key : str)
    (max_results : Z) : M (list pyval) :=
  let params := serpapi_params query api_key max_results in
  try_except
    (record_call (HttpGet serpapi_url params) ;;
     resp <- lift (requests_get E serpapi_url params) ;;
     lift (raise_for_status resp) ;;
     data <- lift (json resp) ;;
     results <- lift (dict_get data (lit "organic_results") (PList [])) ;;
     sliced <- lift (slice results max_results) ;;
     rs <- lift (iterate sliced) ;;
     comprehension_if
       (fun r => lift (dict_get r (lit "link") PNone))
       (fun r => l <- lift (dict_get r (lit "link") PNone) ;; ret (truthy l))
       rs)
    any_exception
    (fun _ => ret []).

(* ------------------------------------------------------------------ *)
(** ** Content Extractor *)

(** [driver.get(url)] (followed by [time.sleep(3)], which has no effect on
    the model). *)
Definition driver_get (load_timeout : Z) (url : pyval) : M page :=
  fun st =>
    lift (chrome_get E load_timeout (visits st) url)
      {| extracted := extracted st;
         visits := S (visits st);
         log := log st ++ [ChromeGet url] |}.

(** Strategy 1: headings, paragraphs and anchors. *)
Definition text_nodes (p : page) : M unit :=
  elems <- lift (page_text_nodes p) ;;
  for_ elems (fun el =>
    tag <- lift (elem_tag_name el) ;;
    let tag := lower tag in
    text <- lift (elem_text el) ;;
    let text := strip text in
    if str_eqb tag (lit "a") then
      href <- lift (elem_href el) ;;
      match href with
      | Some h =>
          if nonempty text && nonempty h
          then emit (lit "[" ++ text ++ lit "](" ++ h ++ lit ")" ++ newline)
          else ret tt
      | None => ret tt
      end
    else if is_valid_text text then emit (text ++ newline)
    else ret tt).

(** [cafe.find_element(By.CLASS_NAME, c).text.strip()
       if cafe.find_elements(By.CLASS_NAME, c) else ""] *)
Definition subfield_text (f : subfield) : M str :=
  found <- lift (sub_find_elements f) ;;
  match found with
  | _ :: _ =>
      el <- lift (sub_find_element f) ;;
      text <- lift (elem_text el) ;;
      ret (strip text)
  | [] => ret []
  end.

Definition card_record (name category price : str) : str :=
  newline ++ lit "Name: " ++ name ++
  newline ++ lit "Category: " ++ category ++
  newline ++ lit "Price for two: " ++ price ++ newline.

(** The body of [for cafe in cafes]. *)
Definition scrape_cafe (cafe : card) : M unit :=
  name <- subfield_text (card_name cafe) ;;
  category <- subfield_text (card_category cafe) ;;
  price <- subfield_text (card_price cafe) ;;
  if nonempty name || nonempty category || nonempty price
  then emit (card_record name category price)
  else ret tt.

(** Strategy 2: cafe-specific scraping. *)
Definition cafe_cards (p : page) : M unit :=
  cafes <- lift (page_cafes p) ;;
  for_ cafes scrape_cafe.

(** [l[i].text.strip() if i < len(l) else ""], for [i >= 0]. *)
Definition item_text (l : list element) (i : nat) : M str :=
  match nth_error l i with
  | Some el => text <- lift (elem_text el) ;; ret (strip text)
  | None => ret []
  end.

Definition listing_record (name rating address : str) : str :=
  newline ++ lit "Name: " ++ name ++
  newline ++ lit "Rating: " ++ rating ++
  newline ++ lit "Address: " ++ address ++ newline.

(** Strategy 3: additional selectors. *)
Definition directory_listings (p : page) : M unit :=
  names <- lift (page_names p) ;;
  ratings <- lift (page_ratings p) ;;
  addresses <- lift (page_addresses p) ;;
  for_ (seq 0 (List.length names)) (fun i =>
    name <- item_text names i ;;
    rating <- item_text ratings i ;;
    address <- item_text addresses i ;;
    if nonempty name || nonempty rating || nonempty address
    then emit (listing_record name rating address)
    else ret tt).

(** The body of [for row in rows]. *)
Definition scrape_row (r : row) : M unit :=
  ths <- lift (row_th r) ;;
  tds <- lift (row_td r) ;;
  let cells := ths ++ tds in
  texts <- comprehension
             (fun cell => text <- lift (elem_text cell) ;; ret (strip text))
             cells ;;
  if existsb nonempty texts then emit (join tab texts ++ newline)
  else ret tt.

(** Strategy 4: tables. *)
Definition tables (p : page) : M unit :=
  tbls <- lift (page_tables p) ;;
  for_ tbls (fun t =>
    rows <- lift (table_tr t) ;;
    for_ rows scrape_row).

(** The four strategies applied to a loaded page, as [scrape_url] chains
    them after the navigation. *)
Definition scrape_page (p : page) : M unit :=
  try_except (text_nodes p) any_exception (fun _ => continue_) ;;
  try_except (cafe_cards p) any_exception (fun _ => continue_) ;;
  try_except (directory_listings p) any_exception (fun _ => continue_) ;;
  try_except (tables p) any_exception (fun _ => continue_).

(** The body of [for url in links]: each [except] clause ends the
    iteration with [continue]. *)
Definition scrape_url (load_timeout : Z) (url : pyval) : M unit :=
  p <- try_except (driver_get load_timeout url)
         is_WebDriverException (fun _ => continue_) ;;
  try_except (text_nodes p) any_exception (fun _ => continue_) ;;
  try_except (cafe_cards p) any_exception (fun _ => continue_) ;;
  try_except (directory_listings p) any_exception (fun _ => continue_) ;;
  try_except (tables p) any_exception (fun _ => continue_).

(** [driver = webdriver.Chrome(options=options)] and [extracted = ""]. *)
Definition launch : M unit :=
  fun st =>
    lift (webdriver_Chrome E)
      {| extracted := []; visits := 0; log := log st ++ [ChromeLaunch] |}.

(** [driver.set_page_load_timeout(load_timeout)]: a command to the session
    just acquired, outside any [try].  It goes to the local driver and is
    not counted among the outbound calls. *)
Definition configure (load_timeout : Z) : M unit :=
  lift (set_page_load_timeout E load_timeout).

Definition scrape_links (links : list pyval) (load_timeout : Z) : M str :=
  launch ;;
  configure load_timeout ;;
  for_ links (scrape_url load_timeout) ;;
  record_call ChromeQuit ;;
  fun st => (Done (extracted st), st).

(* ------------------------------------------------------------------ *)
(** ** Answer Synthesizer *)

Definition gemini_url (api_key : str) : str :=
  lit "https://generativelanguage.googleapis.com/v1beta/models/gemini-2.0-flash:generateContent?key="
  ++ api_key.

(** What an f-string puts for [{v}]. *)
Definition format_value (v : pyval) : str :=
  match v with
  | PStr s => s
  | _ => str_of_value E v
  end.

Definition prompt (user_question : pyval) (scraped_text : str) : str :=
  lit "You are an AI assistant helping the user answer a question using only the provided web data. "
  ++ lit "If no relevant content is found, use your own intelligence." ++ newline ++ newline
  ++ lit "Give verbose output to the user"
  ++ lit "=== Scraped Web Content Start ===" ++ newline
  ++ scraped_text ++ newline
  ++ lit "=== Scraped Web Content End ===" ++ newline ++ newline
  ++ lit "User's question: " ++ format_value user_question ++ newline
  ++ lit "- Don't give reference to the source." ++ newline
  ++ lit "- If no data, answer naturally." ++ newline.

Definition payload (prompt_text : str) : pyval :=
  PDict [ (lit "contents",
           PList [ PDict [ (lit "parts",
                            PList [ PDict [ (lit "text", PStr prompt_text) ] ]) ] ]) ].

(** [data["candidates"][0]["content"]["parts"][0]["text"].strip()] *)
Definition generated_text (data : pyval) : res str :=
  match getitem_key data (lit "candidates") with Err e => Err e | Ok a =>
  match getitem_0 a with Err e => Err e | Ok b =>
  match getitem_key b (lit "content") with Err e => Err e | Ok c =>
  match getitem_key c (lit "parts") with Err e => Err e | Ok d =>
  match getitem_0 d with Err e => Err e | Ok f =>
  match getitem_key f (lit "text") with Err e => Err e | Ok t =>
  str_strip t end end end end end end.

Definition gemini_error (status : Z) : str :=
  cross_mark ++ lit " Gemini Error: " ++ decimal status.

Definition gemini_request_failed (e : exn) : str :=
  cross_mark ++ lit " Gemini request failed: " ++ str_of_exn E e.

Definition query_gemini (user_question : pyval) (scraped_text : str)
    (api_key : str) : M str :=
  let url := gemini_url api_key in
  let body := payload (prompt user_question scraped_text) in
  try_except
    (record_call (HttpPost url body) ;;
     resp <- lift (requests_post E url body) ;;
     if (status_code resp =? 200)%Z then
       data <- lift (json resp) ;;
       lift (generated_text data)
     else ret (gemini_error (status_code resp)))
    any_exception
    (fun e => ret (gemini_request_failed e)).

(* ------------------------------------------------------------------ *)
(** ** Pipeline Orchestrator: [POST /api/realtime] *)

(** [data] is the parsed request body. *)
Definition handle_query (data : pyval) : M reply :=
  question <- lift (dict_get data (lit "question") (PStr [])) ;;
  if negb (truthy question) then ret missing_question
  else
    links <- get_links_from_serpapi question (SERPAPI_KEY E) 5 ;;
    match links with
    | [] => ret no_search_results
    | _ :: _ =>
        scraped <- scrape_links links 7 ;;
        if negb (nonempty (strip scraped)) then ret no_content_extracted
        else
          answer <- query_gemini question scraped (GEMINI_API_KEY E) ;;
          ret {| reply_status := 200; reply_answer := answer |}
    end.

End Server.

(* ================================================================== *)
(** * Observations on states and computations *)
(* ================================================================== *)

(** The state after [extracted += txt], and after further outbound calls. *)
Definition with_text (s : state) (txt : str) : state :=
  {| extracted := extracted s ++ txt; visits := visits s; log := log s |}.

Definition with_log (s : state) (evs : list event) : state :=
  {| extracted := extracted s; visits := visits s; log := log s ++ evs |}.

(** The state once the browser has been asked to start. *)
Definition launched (s : state) : state :=
  {| extracted := []; visits := 0; log := log s ++ [ChromeLaunch] |}.

(** The browser session is acquired and configured. *)
Definition session_ready (E : env) (t : Z) : Prop :=
  webdriver_Chrome E = Ok tt /\ set_page_load_timeout E t = Ok tt.

(** The extractor stops before its loop with the exception [e]: the
    browser does not start, or the session just acquired refuses its
    configuration. *)
Definition session_refused (E : env) (t : Z) (e : exn) : Prop :=
  webdriver_Chrome E = Err e
  \/ (webdriver_Chrome E = Ok tt /\ set_page_load_timeout E t = Err e).

(** The state once [url] has been navigated to and [txt] extracted. *)
Definition navigated (s : state) (url : pyval) (txt : str) : state :=
  {| extracted := extracted s ++ txt;
     visits := S (visits s);
     log := log s ++ [ChromeGet url] |}.

(** A computation that neither reads nor writes the state, and that ends
    normally or by raising. *)
Definition stateless (A : Type) (m : M A) : Prop :=
  exists r : res A, forall s, m s = lift r s.

(** A computation whose only effect is to append to [extracted]: it makes
    no outbound call. *)
Definition text_only (A : Type) (m : M A) : Prop :=
  forall s, exists txt, snd (m s) = with_text s txt.

(** A computation out of which no exception propagates. *)
Definition contained (A : Type) (m : M A) : Prop :=
  forall s e, fst (m s) <> Raised e.


(** Number of times a browser session is released in a run of calls. *)
Definition quits (evs : list event) : nat :=
  List.length
    (filter (fun ev => match ev with ChromeQuit => true | _ => false end) evs).

(** ** Example worlds, used to run the program on concrete inputs *)

Module Examples.

(** A world whose search API answers [search], whose browser answers
    [nav n url] to its [n]-th navigation and whose language model answers
    [model]. *)
Definition world (search : res response) (nav : nat -> pyval -> res page)
    (model : res response) : env :=
  {| SERPAPI_KEY := lit "serp-key";
     GEMINI_API_KEY := lit "gemini-key";
     requests_get := fun _ _ => search;
     requests_post := fun _ _ => model;
     webdriver_Chrome := Ok tt;
     set_page_load_timeout := fun _ => Ok tt;
     chrome_get := fun _ n url => nav n url;
     str_of_value := fun _ => lit "<value>";
     str_of_exn := fun _ => lit "<exception>" |}.

Definition ok_json (status : Z) (body : pyval) : res response :=
  Ok {| status_code := status; json := Ok body |}.

(** A search result entry with a link, and one without. *)
Definition hit (url : string) : pyval :=
  PDict [ (lit "title", PStr (lit "a result")); (lit "link", PStr (lit url)) ].
Definition hit_without_link : pyval :=
  PDict [ (lit "title", PStr (lit "a result")) ].

Definition organic (rs : list pyval) : pyval :=
  PDict [ (lit "organic_results", PList rs) ].

(** A request body [{"question": v}]. *)
Definition ask (v : pyval) : pyval := PDict [ (lit "question", v) ].

(** An element with the given tag and visible text, no [href]. *)
Definition node (tag text : string) : element :=
  {| elem_tag_name := Ok (lit tag);
     elem_text := Ok (lit text);
     elem_href := Ok None |}.

Definition offline : res response := Err ConnectionError.
Definition unreachable (n : nat) (url : pyval) : res page :=
  Err TimeoutException.

(** The model's answer envelope around a generated text. *)
Definition envelope (text : pyval) : pyval :=
  PDict [ (lit "candidates",
           PList [ PDict [ (lit "content",
                            PDict [ (lit "parts",
                                     PList [ PDict [ (lit "text", text) ] ]);
                                    (lit "role", PStr (lit "model")) ]);
                           (lit "finishReason", PStr (lit "STOP")) ] ]) ].

End Examples.

(** ** Search results *)

(** [r.get("link")] of a result entry that is a JSON object. *)
Definition link_of (r : pyval) : pyval :=
  match r with
  | PDict d => match lookup (lit "link") d with Some v => v | None => PNone end
  | _ => PNone
  end.

(** The value is a JSON object. *)
Definition is_object (v : pyval) : bool :=
  match v with PDict _ => true | _ => false end.

(** The resolver as the specification words it: entries without a link are
    filtered out first, the remaining links are then truncated. *)
Definition resolve_filter_then_truncate (rs : list pyval) (max_results : Z)
    : list pyval :=
  slice_to max_results (filter truthy (map link_of rs)).

(** The [try] block of [get_links_from_serpapi] once the request is on its
    way: parsing the answer touches no state. *)
Definition parse_answer (E : env) (query : pyval) (api_key : str) (max_results : Z)
    : M (list pyval) :=
  resp <- lift (requests_get E serpapi_url
                  (serpapi_params query api_key max_results)) ;;
  lift (raise_for_status resp) ;;
  data <- lift (json resp) ;;
  results <- lift (dict_get data (lit "organic_results") (PList [])) ;;
  sliced <- lift (slice results max_results) ;;
  rs <- lift (iterate sliced) ;;
  comprehension_if
    (fun r => lift (dict_get r (lit "link") PNone))
    (fun r => l <- lift (dict_get r (lit "link") PNone) ;; ret (truthy l))
    rs.

(** The call a search makes. *)
Definition search_call (E : env) (query : pyval) (max_results : Z) : event :=
  HttpGet serpapi_url (serpapi_params query (SERPAPI_KEY E) max_results).

Definition search_answer (E : env) (query : pyval) (max_results : Z)
    : res response :=
  requests_get E serpapi_url (serpapi_params query (SERPAPI_KEY E) max_results).

(** A status for which [raise_for_status] raises. *)
Definition error_status (status : Z) : bool :=
  ((400 <=? status) && (status <? 600))%Z.

Definition success_status (status : Z) : bool :=
  ((200 <=? status) && (status <? 300))%Z.

(** A body that is not JSON, not a JSON object, whose ["organic_results"]
    is not an array, or one of whose first [n] results is not an object. *)
Definition malformed_body (n : Z) (b : res pyval) : bool :=
  match b with
  | Err _ => true
  | Ok (PDict d) =>
      match lookup (lit "organic_results") d with
      | None => false
      | Some (PList l) => negb (forallb is_object (slice_to n l))
      | Some _ => true
      end
  | Ok _ => true
  end.

(** A well-formed body without organic results. *)
Definition empty_result_set (b : res pyval) : bool :=
  match b with
  | Ok (PDict d) =>
      match lookup (lit "organic_results") d with
      | None | Some (PList []) => true
      | Some _ => false
      end
  | _ => false
  end.


(** The search came back without usable results: the request raised, the
    status is one [raise_for_status] rejects, the body is malformed, or the
    result set is empty. *)
Definition search_unavailable (n : Z) (r : res response) : bool :=
  match r with
  | Err _ => true
  | Ok resp =>
      error_status (status_code resp)
      || malformed_body n (json resp)
      || empty_result_set (json resp)
  end.


(** ** The handler and the synthesizer *)

(** [data.get("question", "")] on a request body that is a JSON object. *)
Definition question_of (d : list (str * pyval)) : pyval :=
  match lookup (lit "question") d with
  | Some v => v
  | None => PStr []
  end.

(** The call the synthesizer makes. *)
Definition model_call (E : env) (question : pyval) (context : str)
    (api_key : str) : event :=
  HttpPost (gemini_url api_key) (payload (prompt E question context)).

Definition model_answer (E : env) (question : pyval) (context : str)
    (api_key : str) : res response :=
  requests_post E (gemini_url api_key) (payload (prompt E question context)).

(** [data["candidates"][0]["content"]["parts"][0]["text"]], before [strip]. *)
Definition envelope_text (data : pyval) : res pyval :=
  match getitem_key data (lit "candidates") with Err e => Err e | Ok a =>
  match getitem_0 a with Err e => Err e | Ok b =>
  match getitem_key b (lit "content") with Err e => Err e | Ok c =>
  match getitem_key c (lit "parts") with Err e => Err e | Ok d =>
  match getitem_0 d with Err e => Err e | Ok f =>
  getitem_key f (lit "text") end end end end end.

(** An answer that is marked as an error of the synthesizer. *)
Definition error_marked (answer : str) : bool :=
  startswith answer (cross_mark ++ lit " Gemini ").

Definition is_model_call (ev : event) : Prop :=
  match ev with HttpPost _ _ => True | _ => False end.


(** The request body has no ["question"] or binds it to a falsy value. *)
Definition question_absent_or_falsy (d : list (str * pyval)) : Prop :=
  match lookup (lit "question") d with
  | None => True
  | Some v => truthy v = false
  end.


(** ** Listing cards *)

(** The sub-element is on the card and its trimmed text is [value]. *)
Definition populated (f : subfield) (value : str) : Prop :=
  exists els el raw,
    sub_find_elements f = Ok els /\ els <> []
    /\ sub_find_element f = Ok el
    /\ elem_text el = Ok raw /\ strip raw = value.

(** The sub-element is not on the card. *)
Definition absent (f : subfield) : Prop := sub_find_elements f = Ok [].

(** The sub-field is empty: absent, or present with blank text. *)
Definition empty_subfield (f : subfield) : Prop := absent f \/ populated f [].

(** ** Tables, as they are in the document *)

Inductive cell_tag : Type := th | td.

(** A row of the document: its cells in document order, each with its tag
    and its visible text. *)
Definition dom_cell : Type := (cell_tag * str)%type.
Definition dom_row : Type := list dom_cell.

Definition is_th (c : dom_cell) : bool :=
  match fst c with th => true | td => false end.
Definition is_td (c : dom_cell) : bool := negb (is_th c).

Definition cell_element (c : dom_cell) : element :=
  {| elem_tag_name := Ok (match fst c with th => lit "th" | td => lit "td" end);
     elem_text := Ok (snd c);
     elem_href := Ok None |}.

(** What the two tag queries of the source return on a row: the matching
    cells, in document order. *)
Definition row_of (r : dom_row) : row :=
  {| row_th := Ok (map cell_element (filter is_th r));
     row_td := Ok (map cell_element (filter is_td r)) |}.

Definition table_of (rows : list dom_row) : table :=
  {| table_tr := Ok (map row_of rows) |}.

Definition trimmed (c : dom_cell) : str := strip (snd c).

(** At least one trimmed cell of the row is not empty. *)
Definition row_has_text (r : dom_row) : bool :=
  existsb (fun c => nonempty (trimmed c)) r.

(** The line of a row with its cells in document order, as the
    specification words it. *)
Definition line_in_document_order (r : dom_row) : str :=
  join tab (map trimmed r) ++ newline.

(** The line of a row with its header cells first and its data cells
    after them. *)
Definition line_headers_first (r : dom_row) : str :=
  join tab (map trimmed (filter is_th r ++ filter is_td r)) ++ newline.

(** No data cell of the row precedes a header cell. *)
Fixpoint headers_lead (r : dom_row) : bool :=
  match r with
  | [] => true
  | c :: r' => if is_th c then headers_lead r' else forallb is_td r'
  end.

(** The text the table strategy extracts from a table. *)
Definition table_lines (rows : list dom_row) : str :=
  List.concat (map (fun r => if row_has_text r then line_headers_first r else [])
            rows).


(** ** Strategies of a page *)

(** The four extraction strategies, in the order the source applies them. *)
Definition strategies (p : page) : list (M unit) :=
  [text_nodes p; cafe_cards p; directory_listings p; tables p].

(** The state after the strategies [ms] have all run to their end. *)
Fixpoint run_seq (ms : list (M unit)) (s : state) : option state :=
  match ms with
  | [] => Some s
  | m :: ms' =>
      match m s with
      | (Done _, s') => run_seq ms' s'
      | _ => None
      end
  end.

(** A strategy whose failures are swallowed, and the page extraction the
    specification words: every strategy isolated, applied whatever happened
    in the others. *)
Definition swallow (m : M unit) : M unit :=
  try_except m any_exception (fun _ => ret tt).

Definition scrape_page_isolated (p : page) : M unit :=
  swallow (text_nodes p) ;;
  swallow (cafe_cards p) ;;
  swallow (directory_listings p) ;;
  swallow (tables p).


(** A page with a heading and a one-cell table, on which the query for
    listing cards fails. *)
Definition flaky_page : page :=
  {| page_text_nodes := Ok [Examples.node "h1" "Title"];
     page_cafes := Err StaleElementReferenceException;
     page_names := Ok []; page_ratings := Ok []; page_addresses := Ok [];
     page_tables := Ok [table_of [[(td, lit "x")]]] |}.


(* ================================================================== *)
(** * The second endpoint and further observations *)
(* ================================================================== *)

(** ** [POST /api/gemini]: the question goes to the model as it is *)

Definition direct_payload (question : pyval) : pyval :=
  PDict [ (lit "contents",
           PList [ PDict [ (lit "parts",
                            PList [ PDict [ (lit "text", question) ] ]) ] ]) ].

Definition generate_gemini_answer (E : env) (data : pyval) : M reply :=
  question <- lift (dict_get data (lit "question") (PStr [])) ;;
  if negb (truthy question) then ret missing_question
  else
    let url := gemini_url (GEMINI_API_KEY E) in
    let body := direct_payload question in
    try_except
      (record_call (HttpPost url body) ;;
       resp <- lift (requests_post E url body) ;;
       lift (raise_for_status resp) ;;
       data <- lift (json resp) ;;
       answer <- lift (generated_text data) ;;
       ret {| reply_status := 200; reply_answer := answer |})
      any_exception
      (fun e => ret {| reply_status := 200;
                       reply_answer := gemini_request_failed E e |}).

(** The call and the answer of the direct endpoint. *)
Definition direct_call (E : env) (question : pyval) : event :=
  HttpPost (gemini_url (GEMINI_API_KEY E)) (direct_payload question).

Definition direct_answer (E : env) (question : pyval) : res response :=
  requests_post E (gemini_url (GEMINI_API_KEY E)) (direct_payload question).

(** ** Text with something to read in it *)

(** The text has a character that is not whitespace. *)
Definition has_ink (s : str) : bool := existsb (fun c => negb (isspace c)) s.

(** Text made of extracted fragments: nothing at all, or text that has a
    character other than whitespace and ends with a newline. *)
Definition fragmentary (txt : str) : Prop :=
  txt = [] \/ (has_ink txt = true /\ exists pre, txt = pre ++ newline).

(** A computation that only appends fragments to [extracted]. *)
Definition emits_fragments (A : Type) (m : M A) : Prop :=
  forall s, exists txt, snd (m s) = with_text s txt /\ fragmentary txt.

(** ** Text nodes, as they are in the document *)

Record dom_node : Type := {
  node_tag : str;
  node_text : str;
  node_href : option str
}.

Definition node_element (n : dom_node) : element :=
  {| elem_tag_name := Ok (node_tag n);
     elem_text := Ok (node_text n);
     elem_href := Ok (node_href n) |}.

(** What one heading, paragraph or anchor contributes. *)
Definition node_fragment (n : dom_node) : str :=
  let text := strip (node_text n) in
  if str_eqb (lower (node_tag n)) (lit "a") then
    match node_href n with
    | Some h =>
        if nonempty text && nonempty h
        then lit "[" ++ text ++ lit "](" ++ h ++ lit ")" ++ newline
        else []
    | None => []
    end
  else if nonempty text && negb (startswith text (lit "By "))
       then text ++ newline
       else [].

(** ** Counting outbound calls *)

Definition calls (kind : event -> bool) (evs : list event) : nat :=
  List.length (filter kind evs).

Definition is_search (ev : event) : bool :=
  match ev with HttpGet _ _ => true | _ => false end.
Definition is_model_post (ev : event) : bool :=
  match ev with HttpPost _ _ => true | _ => false end.
Definition is_launch (ev : event) : bool :=
  match ev with ChromeLaunch => true | _ => false end.
Definition is_navigation (ev : event) : bool :=
  match ev with ChromeGet _ => true | _ => false end.
Definition is_quit (ev : event) : bool :=
  match ev with ChromeQuit => true | _ => false end.

(** The browser starts, accepts its page-load timeout, and fails its
    navigations, when it fails them, with WebDriver exceptions only. *)
Definition browser_well_behaved (E : env) (t : Z) : Prop :=
  webdriver_Chrome E = Ok tt
  /\ set_page_load_timeout E t = Ok tt
  /\ forall n url e, chrome_get E t n url = Err e ->
                     is_WebDriverException e = true.


(** The world [E] with a browser that cannot be launched. *)
Definition without_browser (E : env) (e : exn) : env :=
  {| SERPAPI_KEY := SERPAPI_KEY E;
     GEMINI_API_KEY := GEMINI_API_KEY E;
     requests_get := requests_get E;
     requests_post := requests_post E;
     webdriver_Chrome := Err e;
     set_page_load_timeout := set_page_load_timeout E;
     chrome_get := chrome_get E;
     str_of_value := str_of_value E;
     str_of_exn := str_of_exn E |}.

(** The world [E] with a browser that starts but refuses the command that
    sets its page-load timeout. *)
Definition without_page_load_timeout (E : env) (e : exn) : env :=
  {| SERPAPI_KEY := SERPAPI_KEY E;
     GEMINI_API_KEY := GEMINI_API_KEY E;
     requests_get := requests_get E;
     requests_post := requests_post E;
     webdriver_Chrome := webdriver_Chrome E;
     set_page_load_timeout := fun _ => Err e;
     chrome_get := chrome_get E;
     str_of_value := str_of_value E;
     str_of_exn := str_of_exn E |}.


(* ================================================================== *)
(** * Reasoning about computations *)
(* ================================================================== *)

Lemma with_text_nil (s : state) : with_text s [] = s.
Proof. destruct s; unfold with_text; simpl; now rewrite app_nil_r. Qed.

Lemma with_text_app (s : state) (a b : str) :
  with_text (with_text s a) b = with_text s (a ++ b).
Proof. unfold with_text; simpl; now rewrite app_assoc. Qed.

Section Combinators.

Variables A B : Type.

Lemma stateless_ret (a : A) : stateless (ret a).
Proof. now exists (Ok a). Qed.

Lemma stateless_raise (e : exn) : stateless (@raise A e).
Proof. now exists (Err e). Qed.

Lemma stateless_lift (r : res A) : stateless (lift r).
Proof. now exists r. Qed.

Lemma stateless_bind (m : M A) (k : A -> M B) :
  stateless m -> (forall a, stateless (k a)) -> stateless (bind m k).
Proof.
  intros [r Hm] Hk. destruct r as [a | e].
  - destruct (Hk a) as [r' Hr']. exists r'. intro s.
    unfold bind. rewrite Hm. simpl. apply Hr'.
  - exists (Err e). intro s. unfold bind. now rewrite Hm.
Qed.

Lemma stateless_text_only (m : M A) : stateless m -> text_only m.
Proof.
  intros [r Hm] s. exists []. rewrite Hm, with_text_nil. now destruct r.
Qed.

Lemma text_only_ret (a : A) : text_only (ret a).
Proof. apply stateless_text_only; apply stateless_ret. Qed.

Lemma text_only_raise (e : exn) : text_only (@raise A e).
Proof. apply stateless_text_only; apply stateless_raise. Qed.

Lemma text_only_continue : text_only (@continue_ A).
Proof. intro s. exists []. simpl. now rewrite with_text_nil. Qed.

Lemma text_only_lift (r : res A) : text_only (lift r).
Proof. apply stateless_text_only; apply stateless_lift. Qed.

Lemma text_only_bind (m : M A) (k : A -> M B) :
  text_only m -> (forall a, text_only (k a)) -> text_only (bind m k).
Proof.
  intros Hm Hk s. unfold bind. destruct (Hm s) as [t1 H1].
  destruct (m s) as [[a | e | ] s1]; simpl in H1; subst s1.
  - destruct (Hk a (with_text s t1)) as [t2 H2].
    exists (t1 ++ t2). now rewrite H2, with_text_app.
  - now exists t1.
  - now exists t1.
Qed.

Lemma text_only_try (body : M A) (catches : exn -> bool) (h : exn -> M A) :
  text_only body -> (forall e, text_only (h e)) ->
  text_only (try_except body catches h).
Proof.
  intros Hb Hh s. unfold try_except. destruct (Hb s) as [t1 H1].
  destruct (body s) as [[a | e | ] s1]; simpl in H1; subst s1.
  - now exists t1.
  - destruct (catches e).
    + destruct (Hh e (with_text s t1)) as [t2 H2].
      exists (t1 ++ t2). now rewrite H2, with_text_app.
    + now exists t1.
  - now exists t1.
Qed.

Lemma text_only_for (l : list A) (body : A -> M unit) :
  (forall x, text_only (body x)) -> text_only (for_ l body).
Proof.
  intro Hb. induction l as [| x l IH]; intro s; simpl.
  - exists []. now rewrite with_text_nil.
  - destruct (Hb x s) as [t1 H1].
    destruct (body x s) as [[[] | e | ] s1]; simpl in H1; subst s1.
    + destruct (IH (with_text s t1)) as [t2 H2].
      exists (t1 ++ t2). now rewrite H2, with_text_app.
    + now exists t1.
    + destruct (IH (with_text s t1)) as [t2 H2].
      exists (t1 ++ t2). now rewrite H2, with_text_app.
Qed.

End Combinators.

Lemma text_only_comprehension (A B : Type) (f : A -> M B) (l : list A) :
  (forall x, text_only (f x)) -> text_only (comprehension f l).
Proof.
  intro Hf. induction l as [| x l IH]; simpl.
  - apply text_only_ret.
  - apply text_only_bind; [apply Hf | intro y].
    apply text_only_bind; [apply IH | intro ys]. apply text_only_ret.
Qed.

Lemma stateless_comprehension_if (A B : Type) (f : A -> M B) (cond : A -> M bool)
    (l : list A) :
  (forall x, stateless (f x)) -> (forall x, stateless (cond x)) ->
  stateless (comprehension_if f cond l).
Proof.
  intros Hf Hc. induction l as [| x l IH]; simpl.
  - apply stateless_ret.
  - apply stateless_bind; [apply Hc | intros []]; [| exact IH].
    apply stateless_bind; [apply Hf | intro y].
    apply stateless_bind; [exact IH | intro ys]. apply stateless_ret.
Qed.

Lemma text_only_emit (txt : str) : text_only (emit txt).
Proof. intro s. now exists txt. Qed.

Lemma contained_try_all (A : Type) (body : M A) (h : exn -> M A) :
  (forall e, contained (h e)) -> contained (try_except body any_exception h).
Proof.
  intros Hh s e. unfold try_except.
  destruct (body s) as [[a | e' | ] s1]; simpl; try discriminate.
  apply Hh.
Qed.

Lemma contained_continue (A : Type) : contained (@continue_ A).
Proof. intros s e. discriminate. Qed.

Lemma contained_bind (A B : Type) (m : M A) (k : A -> M B) :
  contained m -> (forall a, contained (k a)) -> contained (bind m k).
Proof.
  intros Hm Hk s e. unfold bind. specialize (Hm s).
  destruct (m s) as [[a | e' | ] s1]; simpl in *.
  - apply Hk.
  - now destruct (Hm e').
  - discriminate.
Qed.

Ltac effects :=
  repeat first
    [ apply text_only_ret | apply text_only_emit | apply text_only_lift
    | apply text_only_continue | apply text_only_raise
    | apply text_only_bind; [| intro]
    | apply text_only_try; [| intro]
    | apply text_only_for; intro
    | apply text_only_comprehension; intro
    | match goal with
      | |- text_only (if ?b then _ else _) => destruct b
      | |- text_only (match ?x with _ => _ end) => destruct x
      end ].

Section Effects.

Variable E : env.

Lemma text_only_text_nodes (p : page) : text_only (text_nodes p).
Proof. unfold text_nodes. effects. Qed.

Lemma text_only_subfield_text (f : subfield) : text_only (subfield_text f).
Proof. unfold subfield_text. effects. Qed.

Lemma text_only_scrape_cafe (c : card) : text_only (scrape_cafe c).
Proof.
  unfold scrape_cafe.
  repeat (apply text_only_bind; [apply text_only_subfield_text | intro]).
  effects.
Qed.

Lemma text_only_cafe_cards (p : page) : text_only (cafe_cards p).
Proof.
  unfold cafe_cards. apply text_only_bind; [effects | intro].
  apply text_only_for. apply text_only_scrape_cafe.
Qed.

Lemma text_only_item_text (l : list element) (i : nat) :
  text_only (item_text l i).
Proof. unfold item_text. effects. Qed.

Lemma text_only_directory_listings (p : page) :
  text_only (directory_listings p).
Proof.
  unfold directory_listings.
  repeat (apply text_only_bind; [apply text_only_lift | intro]).
  apply text_only_for. intro i.
  repeat (apply text_only_bind; [apply text_only_item_text | intro]).
  effects.
Qed.

Lemma text_only_scrape_row (r : row) : text_only (scrape_row r).
Proof. unfold scrape_row. effects. Qed.

Lemma text_only_tables (p : page) : text_only (tables p).
Proof.
  unfold tables. apply text_only_bind; [effects | intro].
  apply text_only_for. intro t.
  apply text_only_bind; [effects | intro].
  apply text_only_for. apply text_only_scrape_row.
Qed.

Lemma text_only_caught (m : M unit) :
  text_only m -> text_only (try_except m any_exception (fun _ => continue_)).
Proof.
  intro H. apply text_only_try; [exact H | intro; apply text_only_continue].
Qed.

Lemma text_only_scrape_page (p : page) : text_only (scrape_page p).
Proof.
  unfold scrape_page.
  apply text_only_bind;
    [apply text_only_caught, text_only_text_nodes | intros _].
  apply text_only_bind;
    [apply text_only_caught, text_only_cafe_cards | intros _].
  apply text_only_bind;
    [apply text_only_caught, text_only_directory_listings | intros _].
  apply text_only_caught, text_only_tables.
Qed.

Lemma contained_caught (m : M unit) :
  contained (try_except m any_exception (fun _ => continue_)).
Proof. apply contained_try_all. intro. apply contained_continue. Qed.

Lemma contained_scrape_page (p : page) : contained (scrape_page p).
Proof.
  unfold scrape_page.
  repeat (apply contained_bind; [apply contained_caught | intros _]).
  apply contained_caught.
Qed.

Lemma scrape_url_unfold (t : Z) (url : pyval) (s : state) :
  scrape_url E t url s =
  match chrome_get E t (visits s) url with
  | Ok p => scrape_page p (navigated s url [])
  | Err e =>
      if is_WebDriverException e then (Continue, navigated s url [])
      else (Raised e, navigated s url [])
  end.
Proof.
  unfold scrape_url, scrape_page, bind at 1, try_except at 1, driver_get.
  unfold navigated. rewrite app_nil_r.
  destruct (chrome_get E t (visits s) url) as [p | e]; simpl.
  - reflexivity.
  - now destruct (is_WebDriverException e).
Qed.

(** One iteration of the URL loop makes exactly one outbound call, the
    navigation, and only appends to [extracted]; the only exception that
    leaves it is a navigation failure that is not a WebDriver one. *)
Lemma scrape_url_effect (t : Z) (url : pyval) (s : state) :
  exists txt,
    snd (scrape_url E t url s) = navigated s url txt
    /\ forall e, fst (scrape_url E t url s) = Raised e ->
         chrome_get E t (visits s) url = Err e
         /\ is_WebDriverException e = false.
Proof.
  rewrite scrape_url_unfold.
  destruct (chrome_get E t (visits s) url) as [p | e].
  - destruct (text_only_scrape_page p (navigated s url [])) as [txt H].
    exists txt. split.
    + rewrite H. unfold with_text, navigated. simpl. now rewrite app_nil_r.
    + intros e He. now apply contained_scrape_page in He.
  - exists []. destruct (is_WebDriverException e) eqn:W; simpl; split;
      try reflexivity; intros e' He'; try discriminate.
    injection He' as <-. now split.
Qed.

End Effects.

Create HintDb effects.
#[local] Hint Resolve text_only_text_nodes text_only_cafe_cards
  text_only_directory_listings text_only_tables : effects.

(* ================================================================== *)
(** * The Content Extractor and its browser session *)
(* ================================================================== *)

Lemma quits_app (a b : list event) : quits (a ++ b) = quits a + quits b.
Proof. unfold quits. now rewrite filter_app, length_app. Qed.

Lemma quits_navigations (urls : list pyval) : quits (map ChromeGet urls) = 0.
Proof. induction urls as [| u l IH]; [reflexivity | exact IH]. Qed.

Section Extractor.

Variable E : env.
Variable t : Z.

(** The URL loop navigates to a prefix of [links], in order; it stops early
    only on a navigation failure that is not a WebDriver exception. *)
Lemma url_loop_effect (links : list pyval) :
  forall s, exists txt visited,
    snd (for_ links (scrape_url E t) s) =
      {| extracted := extracted s ++ txt;
         visits := visits s + List.length visited;
         log := log s ++ map ChromeGet visited |}
    /\ match fst (for_ links (scrape_url E t) s) with
       | Done _ => visited = links
       | Raised e => is_WebDriverException e = false
       | Continue => False
       end.
Proof.
  induction links as [| url links IH]; intro s.
  - exists [], []. simpl. split; [| reflexivity].
    destruct s; simpl. now rewrite !app_nil_r, Nat.add_0_r.
  - simpl. destruct (scrape_url_effect E t url s) as [txt [Hs He]].
    destruct (scrape_url E t url s) as [[[] | e | ] s1];
      simpl in Hs; subst s1.
    + destruct (IH (navigated s url txt)) as [txt2 [visited [H1 H2]]].
      exists (txt ++ txt2), (url :: visited). rewrite H1. split.
      * simpl. rewrite <- !app_assoc. f_equal. lia.
      * destruct (fst (for_ links (scrape_url E t) (navigated s url txt)));
          try assumption. now subst.
    + exists txt, [url]. simpl. split.
      * unfold navigated. f_equal. lia.
      * now destruct (He e eq_refl).
    + destruct (IH (navigated s url txt)) as [txt2 [visited [H1 H2]]].
      exists (txt ++ txt2), (url :: visited). rewrite H1. split.
      * simpl. rewrite <- !app_assoc. f_equal. lia.
      * destruct (fst (for_ links (scrape_url E t) (navigated s url txt)));
          try assumption. now subst.
Qed.

(** When the browser fails only with WebDriver exceptions, every URL is
    visited. *)
Lemma url_loop_returns (links : list pyval) :
  (forall n url e, chrome_get E t n url = Err e ->
                   is_WebDriverException e = true) ->
  forall s, fst (for_ links (scrape_url E t) s) = Done tt.
Proof.
  intro Hnav. induction links as [| url links IH]; intro s; simpl.
  - reflexivity.
  - destruct (scrape_url_effect E t url s) as [txt [Hs He]].
    destruct (scrape_url E t url s) as [[[] | e | ] s1]; simpl.
    + apply IH.
    + destruct (He e eq_refl) as [H1 H2]. apply Hnav in H1. congruence.
    + apply IH.
Qed.

End Extractor.

Lemma session_cases (E : env) (t : Z) :
  session_ready E t \/ exists e, session_refused E t e.
Proof.
  unfold session_ready, session_refused.
  destruct (webdriver_Chrome E) as [[] | e]; [| right; eauto].
  destruct (set_page_load_timeout E t) as [[] | e]; [left | right]; eauto.
Qed.

(** What [scrape_links] does from a state [s] once the session is ready:
    the loop runs from a fresh accumulator, and the session is quit only
    after the loop has ended normally. *)
Lemma scrape_links_unfold (E : env) (links : list pyval) (t : Z) (s : state) :
  session_ready E t ->
  scrape_links E links t s =
  match for_ links (scrape_url E t) (launched s) with
  | (Done _, s1) => (Done (extracted s1), with_log s1 [ChromeQuit])
  | (Raised e, s1) => (Raised e, s1)
  | (Continue, s1) => (Continue, s1)
  end.
Proof.
  intros [HL HT]. unfold scrape_links, bind, launch, configure.
  rewrite HL. cbn [lift ret]. rewrite HT. cbn [lift ret].
  fold (launched s).
  now destruct (for_ links (scrape_url E t) _) as [[[] | e | ] s1].
Qed.

(** And when the session is refused: the exception leaves the extractor
    right after the launch. *)
Lemma scrape_links_refused (E : env) (links : list pyval) (t : Z) (s : state)
    (e : exn) :
  session_refused E t e ->
  scrape_links E links t s = (Raised e, launched s).
Proof.
  unfold scrape_links, bind, launch, configure.
  intros [HL | [HL HT]]; rewrite HL; [reflexivity |].
  cbn [lift ret]. now rewrite HT.
Qed.

(** A return of the extractor: the launch, one navigation per URL in
    order, then the release. *)
Lemma scrape_links_returned (E : env) (links : list pyval) (t : Z)
    (s st : state) (txt : str) :
  scrape_links E links t s = (Done txt, st) ->
  log st = log s ++ ChromeLaunch :: map ChromeGet links ++ [ChromeQuit].
Proof.
  intro H.
  destruct (session_cases E t) as [R | [e R]].
  - rewrite (@scrape_links_unfold E links t s R) in H.
    destruct (url_loop_effect E t links (launched s))
      as [txt' [visited [Hs Hf]]].
    destruct (for_ links (scrape_url E t) (launched s)) as [[[] | e | ] s1];
      simpl in *; try discriminate.
    injection H as _ <-. subst s1 visited. simpl.
    now rewrite <- !app_assoc.
  - rewrite (@scrape_links_refused E links t s e R) in H. discriminate.
Qed.

(** A navigation that raises an exception which is not a WebDriver one ends
    the URL loop with that exception, when the navigations before it loaded
    their page or failed with WebDriver exceptions. *)
Lemma url_loop_propagates (E : env) (t : Z) (before : list pyval) :
  forall (url : pyval) (after : list pyval) (e : exn) (s : state),
    (forall i u e', nth_error before i = Some u ->
                    chrome_get E t (visits s + i) u = Err e' ->
                    is_WebDriverException e' = true) ->
    chrome_get E t (visits s + List.length before) url = Err e ->
    is_WebDriverException e = false ->
    exists st,
      for_ (before ++ url :: after) (scrape_url E t) s = (Raised e, st)
      /\ log st = log s ++ map ChromeGet (before ++ [url]).
Proof.
  induction before as [| u before IH]; intros url after e s Hbefore Hurl He.
  - cbn [app for_]. rewrite scrape_url_unfold.
    rewrite Nat.add_0_r in Hurl. rewrite Hurl, He.
    exists (navigated s url []). now split.
  - cbn [app for_].
    destruct (scrape_url_effect E t u s) as [txt [Hs Hraise]].
    assert (forall e', fst (scrape_url E t u s) <> Raised e') as Hno.
    { intros e' R. destruct (Hraise e' R) as [H1 H2].
      rewrite <- (Nat.add_0_r (visits s)) in H1.
      rewrite (Hbefore 0 u e' eq_refl H1) in H2. discriminate. }
    destruct (IH url after e (navigated s u txt)) as [st [Hrun Hlog]].
    + intros i u' e' Hi H. apply (Hbefore (S i) u' e' Hi).
      cbn [navigated visits] in H. now rewrite Nat.add_succ_r.
    + cbn [navigated visits List.length] in *.
      now rewrite Nat.add_succ_r in Hurl.
    + exact He.
    + destruct (scrape_url E t u s) as [[[] | e0 | ] s1];
        simpl in Hs; subst s1.
      * exists st. split; [exact Hrun |]. rewrite Hlog. simpl.
        now rewrite <- app_assoc.
      * now destruct (Hno e0).
      * exists st. split; [exact Hrun |]. rewrite Hlog. simpl.
        now rewrite <- app_assoc.
Qed.

(** C4 (amended): whenever the Content Extractor returns -- after normal
    completion, after skipping URLs whose navigation timed out or failed
    with a WebDriver exception, after failures inside strategies -- the
    calls it made are the launch, one navigation per URL in order, and then
    exactly one release of the browser session, as the last call.  It
    returns whenever the browser starts, accepts its page-load timeout and
    fails its navigations only with WebDriver exceptions.  With the session
    acquired, when [set_page_load_timeout] raises, or when a navigation
    raises an exception that is not a WebDriver one (the navigations before
    it having loaded or failed with WebDriver exceptions), that exception
    propagates out of the extractor and the session has not been released.
    No exception ever leaves the extractor after a release. *)
Theorem session_released_on_return :
  forall (E : env) (links : list pyval) (t : Z) (s : state),
    (forall txt st,
        scrape_links E links t s = (Done txt, st) ->
        exists session,
          log st = log s ++ session
          /\ session = ChromeLaunch :: map ChromeGet links ++ [ChromeQuit]
          /\ quits session = 1)
    /\ (webdriver_Chrome E = Ok tt ->
        set_page_load_timeout E t = Ok tt ->
        (forall n url e, chrome_get E t n url = Err e ->
                         is_WebDriverException e = true) ->
        exists txt st, scrape_links E links t s = (Done txt, st))
    /\ (forall e,
          webdriver_Chrome E = Ok tt ->
          set_page_load_timeout E t = Err e ->
          scrape_links E links t s = (Raised e, launched s)
          /\ log (launched s) = log s ++ [ChromeLaunch]
          /\ quits [ChromeLaunch] = 0)
    /\ (forall before url after e,
          links = before ++ url :: after ->
          webdriver_Chrome E = Ok tt ->
          set_page_load_timeout E t = Ok tt ->
          (forall i u e', nth_error before i = Some u ->
                          chrome_get E t i u = Err e' ->
                          is_WebDriverException e' = true) ->
          chrome_get E t (List.length before) url = Err e ->
          is_WebDriverException e = false ->
          exists st,
            scrape_links E links t s = (Raised e, st)
            /\ log st
               = log s ++ ChromeLaunch :: map ChromeGet (before ++ [url])
            /\ quits (ChromeLaunch :: map ChromeGet (before ++ [url])) = 0)
    /\ (forall e st,
          scrape_links E links t s = (Raised e, st) ->
          exists session, log st = log s ++ session /\ quits session = 0).
Proof.
  intros E links t s.
  split; [| split; [| split; [| split]]].
  - intros txt st H.
    exists (ChromeLaunch :: map ChromeGet links ++ [ChromeQuit]).
    split; [exact (scrape_links_returned E links t s H) |].
    split; [reflexivity |].
    change (ChromeLaunch :: map ChromeGet links ++ [ChromeQuit])
      with ([ChromeLaunch] ++ map ChromeGet links ++ [ChromeQuit]).
    now rewrite !quits_app, quits_navigations.
  - intros HL HT Hnav.
    rewrite (@scrape_links_unfold E links t s (conj HL HT)).
    pose proof (url_loop_returns E t links Hnav (launched s)) as HD.
    destruct (for_ links (scrape_url E t) (launched s)) as [[[] | e | ] s1];
      simpl in HD; try discriminate.
    eauto.
  - intros e HL HT.
    rewrite (@scrape_links_refused E links t s e (or_intror (conj HL HT))).
    now repeat split.
  - intros before url after e -> HL HT Hbefore Hurl He.
    rewrite (@scrape_links_unfold E _ t s (conj HL HT)).
    destruct (@url_loop_propagates E t before url after e (launched s))
      as [st [Hrun Hlog]]; try assumption.
    rewrite Hrun. exists st. split; [reflexivity |]. split.
    + rewrite Hlog. simpl. now rewrite <- app_assoc.
    + change (ChromeLaunch :: map ChromeGet (before ++ [url]))
        with ([ChromeLaunch] ++ map ChromeGet (before ++ [url])).
      now rewrite quits_app, quits_navigations.
  - intros e st H.
    destruct (session_cases E t) as [R | [e0 R]].
    + rewrite (@scrape_links_unfold E links t s R) in H.
      destruct (url_loop_effect E t links (launched s))
        as [txt [visited [Hs _]]].
      destruct (for_ links (scrape_url E t) (launched s))
        as [[[] | e' | ] s1]; simpl in *; try discriminate.
      injection H as _ <-. subst s1.
      exists (ChromeLaunch :: map ChromeGet visited). split.
      * simpl. now rewrite <- app_assoc.
      * change (ChromeLaunch :: map ChromeGet visited)
          with ([ChromeLaunch] ++ map ChromeGet visited).
        now rewrite quits_app, quits_navigations.
    + rewrite (@scrape_links_refused E links t s e0 R) in H.
      injection H as _ <-. exists [ChromeLaunch]. now split.
Qed.

(** The theorem at a run in which both URLs time out, and at a run in which
    the second navigation loses the connection to the driver. *)
Lemma session_released_on_return_witness :
  let a := PStr (lit "https://a.example") in
  let b := PStr (lit "https://b.example") in
  let c := PStr (lit "https://c.example") in
  let E := Examples.world Examples.offline Examples.unreachable Examples.offline in
  let E' := Examples.world Examples.offline
              (fun n _ => match n with
                          | 0 => Err TimeoutException
                          | _ => Err ConnectionError
                          end)
              Examples.offline in
  (exists txt st,
      scrape_links E [a; b] 7 initial = (Done txt, st)
      /\ log st = [ChromeLaunch; ChromeGet a; ChromeGet b; ChromeQuit])
  /\ (exists st,
        scrape_links E' [a; b; c] 7 initial = (Raised ConnectionError, st)
        /\ log st = [ChromeLaunch; ChromeGet a; ChromeGet b]).
Proof.
  intros a b c E E'. split.
  - destruct (@session_released_on_return E [a; b] 7 initial)
      as [Hret [Hall _]].
    destruct (Hall eq_refl eq_refl) as [txt [st Hrun]].
    + intros n url e H. now injection H as <-.
    + exists txt, st. split; [exact Hrun |].
      destruct (Hret txt st Hrun) as [session [Hlog [Hs _]]].
      rewrite Hlog, Hs. reflexivity.
  - destruct (@session_released_on_return E' [a; b; c] 7 initial)
      as [_ [_ [_ [Hprop _]]]].
    destruct (Hprop [a] b [c] ConnectionError eq_refl eq_refl eq_refl)
      as [st [Hrun [Hlog _]]].
    + intros [| i] u e' Hi H.
      * now injection H as <-.
      * destruct i; discriminate.
    + reflexivity.
    + reflexivity.
    + exists st. split; [exact Hrun | exact Hlog].
Defined.

(** C4 as stated fails: a navigation that raises an exception which is not a
    WebDriver one (here the connection to the driver is lost) leaves
    [scrape_links] with the session acquired and never released. *)
Lemma session_leaked_on_propagation :
  let E := Examples.world Examples.offline
             (fun _ _ => Err ConnectionError) Examples.offline in
  run (scrape_links E [PStr (lit "https://a.example")] 7)
  = (Raised ConnectionError,
     {| extracted := []; visits := 1;
        log := [ChromeLaunch; ChromeGet (PStr (lit "https://a.example"))] |})
  /\ quits [ChromeLaunch; ChromeGet (PStr (lit "https://a.example"))] = 0.
Proof. split; reflexivity. Qed.

(* ================================================================== *)
(** * The Search Resolver *)
(* ================================================================== *)

Lemma slice_to_length (A : Type) (n : Z) (l : list A) :
  (0 <= n)%Z -> (Z.of_nat (List.length (slice_to n l)) <= n)%Z.
Proof.
  intro Hn. unfold slice_to.
  destruct (0 <=? n)%Z eqn:H; [| lia].
  pose proof (firstn_le_length (Z.to_nat n) l).
  rewrite length_firstn. lia.
Qed.

(** On entries that are JSON objects the comprehension is a filter. *)
Lemma link_comprehension (rs : list pyval) (s : state) :
  forallb is_object rs = true ->
  comprehension_if
    (fun r => lift (dict_get r (lit "link") PNone))
    (fun r => l <- lift (dict_get r (lit "link") PNone) ;; ret (truthy l))
    rs s
  = (Done (filter truthy (map link_of rs)), s).
Proof.
  induction rs as [| r rs IH]; [reflexivity |].
  destruct r as [ | | | | | | d]; try discriminate.
  cbn [forallb is_object andb]. intro H. specialize (IH H).
  cbn [comprehension_if map filter link_of dict_get].
  unfold bind at 1 2. cbn [lift ret].
  destruct (lookup (lit "link") d) as [v |].
  - destruct (truthy v).
    + unfold bind at 1. cbn [ret]. unfold bind at 1. now rewrite IH.
    + exact IH.
  - exact IH.
Qed.

(** An entry that is not a JSON object makes the comprehension raise. *)
Lemma link_comprehension_raises (r : pyval) (rs : list pyval) (s : state) :
  is_object r = false ->
  comprehension_if
    (fun r => lift (dict_get r (lit "link") PNone))
    (fun r => l <- lift (dict_get r (lit "link") PNone) ;; ret (truthy l))
    (r :: rs) s
  = (Raised AttributeError, s).
Proof.
  intro Hr. destruct r; try reflexivity. discriminate.
Qed.

(** So does an entry that is not a JSON object anywhere in the list. *)
Lemma link_comprehension_malformed (rs : list pyval) :
  forallb is_object rs = false ->
  forall s links s',
    comprehension_if
      (fun r => lift (dict_get r (lit "link") PNone))
      (fun r => l <- lift (dict_get r (lit "link") PNone) ;; ret (truthy l))
      rs s
    <> (Done links, s').
Proof.
  induction rs as [| r rs IH]; [discriminate |].
  intros F s links s'.
  destruct r as [ | | | | | | d]; try discriminate.
  cbn [forallb is_object andb] in F. specialize (IH F).
  cbn [comprehension_if dict_get]. unfold bind at 1 2. cbn [lift ret].
  destruct (truthy _).
  - unfold bind at 1. cbn [lift ret]. unfold bind at 1.
    destruct (comprehension_if _ _ rs s) as [[ys | e | ] s1] eqn:R;
      try discriminate.
    now destruct (IH s ys s1).
  - apply IH.
Qed.

Lemma comprehension_if_length (A B : Type) (f : A -> M B) (cond : A -> M bool)
    (l : list A) :
  forall s ys s', comprehension_if f cond l s = (Done ys, s') ->
                  List.length ys <= List.length l.
Proof.
  induction l as [| x l IH]; simpl; intros s ys s' H.
  - injection H as <- _. simpl. lia.
  - unfold bind in H.
    destruct (cond x s) as [[[] | e | ] s1]; try discriminate.
    + destruct (f x s1) as [[y | e | ] s2]; try discriminate.
      destruct (comprehension_if f cond l s2) as [[zs | e | ] s3] eqn:R;
        try discriminate.
      injection H as <- _. apply IH in R. simpl. lia.
    + apply IH in H. lia.
Qed.

Section Resolver.

Variable E : env.

Lemma stateless_parse_answer (query : pyval) (api_key : str) (n : Z) :
  stateless (parse_answer E query api_key n).
Proof.
  unfold parse_answer.
  repeat (apply stateless_bind; [apply stateless_lift | intro]).
  apply stateless_comprehension_if; intro r.
  - apply stateless_lift.
  - apply stateless_bind; [apply stateless_lift | intro; apply stateless_ret].
Qed.

(** The resolver makes exactly one outbound call and never raises: its
    result is the parsed list, or the empty list when parsing raised. *)
Lemma get_links_unfold (query : pyval) (api_key : str) (n : Z) (s : state) :
  get_links_from_serpapi E query api_key n s =
  (Done match fst (parse_answer E query api_key n s) with
        | Done l => l
        | _ => []
        end,
   with_log s [HttpGet serpapi_url (serpapi_params query api_key n)]).
Proof.
  unfold get_links_from_serpapi, try_except, bind at 1, record_call.
  fold (parse_answer E query api_key n).
  destruct (stateless_parse_answer query api_key n) as [r Hr].
  rewrite !Hr. now destruct r.
Qed.

End Resolver.

Lemma bind_Ok (A B : Type) (r : res A) (a : A) (k : A -> M B) (s : state) :
  r = Ok a -> bind (lift r) k s = k a s.
Proof. now intros ->. Qed.

Lemma bind_Err (A B : Type) (r : res A) (e : exn) (k : A -> M B) (s : state) :
  r = Err e -> bind (lift r) k s = (Raised e, s).
Proof. now intros ->. Qed.

Lemma bind_cases (A B : Type) (r : res A) (k : A -> M B) (s : state) :
  (exists a, r = Ok a /\ bind (lift r) k s = k a s)
  \/ (exists e, r = Err e /\ bind (lift r) k s = (Raised e, s)).
Proof. destruct r as [a | e]; [left | right]; eauto. Qed.

(** One step of a computation that starts with a call that may raise, by
    cases on the call's result. *)
Ltac step_in P :=
  match type of P with
  | context [bind (lift ?r) ?k ?s] =>
      let a := fresh "a" in
      let e := fresh "e" in
      let H := fresh "Hstep" in
      let Hb := fresh "Hb" in
      destruct (bind_cases r k s) as [[a [H Hb]] | [e [H Hb]]];
      rewrite Hb in P; clear Hb; try discriminate
  end.

Lemma parse_answer_length (E : env) (query : pyval) (api_key : str) (n : Z)
    (s s' : state) (links : list pyval) :
  (0 <= n)%Z ->
  parse_answer E query api_key n s = (Done links, s') ->
  (Z.of_nat (List.length links) <= n)%Z.
Proof.
  intros Hn P. unfold parse_answer in P.
  repeat step_in P.
  apply comprehension_if_length in P.
  match goal with
  | H1 : slice ?x n = Ok ?y, H2 : iterate ?y = Ok ?rs |- _ =>
      assert (Z.of_nat (List.length rs) <= n)%Z; [| lia];
      destruct x; try discriminate; simpl in H1;
      injection H1 as <-; simpl in H2; injection H2 as <-
  end.
  - rewrite length_map. now apply slice_to_length.
  - now apply slice_to_length.
Qed.

(** C3 (amended): for every search-API response the Search Resolver keeps
    the first [max_results] entries of the ranked results and then drops,
    among those, the entries without a truthy link; the returned sequence
    has length at most [max_results] and follows the API's ranking order. *)
Theorem links_truncated_then_filtered :
  forall (E : env) (query : pyval) (api_key : str) (max_results : Z)
         (s : state),
    (0 <= max_results)%Z ->
    exists links,
      get_links_from_serpapi E query api_key max_results s
      = (Done links,
         with_log s
           [HttpGet serpapi_url (serpapi_params query api_key max_results)])
      /\ (Z.of_nat (List.length links) <= max_results)%Z
      /\ forall resp data rs,
           requests_get E serpapi_url
             (serpapi_params query api_key max_results) = Ok resp ->
           raise_for_status resp = Ok tt ->
           json resp = Ok data ->
           dict_get data (lit "organic_results") (PList []) = Ok (PList rs) ->
           forallb is_object (slice_to max_results rs) = true ->
           links = filter truthy (map link_of (slice_to max_results rs)).
Proof.
  intros E query api_key n s Hn. rewrite get_links_unfold.
  eexists. split; [reflexivity |]. split.
  - destruct (parse_answer E query api_key n s) as [[l | e | ] s1] eqn:P;
      simpl; try lia.
    now apply parse_answer_length in P.
  - intros resp data rs H1 H2 H3 H4 H5. unfold parse_answer.
    rewrite (bind_Ok _ _ H1), (bind_Ok _ _ H2), (bind_Ok _ _ H3),
      (bind_Ok _ _ H4).
    rewrite (bind_Ok (r := slice (PList rs) n) _ _ eq_refl).
    rewrite (bind_Ok (r := iterate (PList (slice_to n rs))) _ _ eq_refl).
    now rewrite link_comprehension.
Qed.

(** The theorem at a response of six ranked entries, the first without a
    link. *)
Lemma links_truncated_then_filtered_witness :
  let rs := [Examples.hit_without_link; Examples.hit "https://1.example";
             Examples.hit "https://2.example"; Examples.hit "https://3.example";
             Examples.hit "https://4.example"; Examples.hit "https://5.example"] in
  let E := Examples.world (Examples.ok_json 200 (Examples.organic rs))
             Examples.unreachable Examples.offline in
  (0 <= 5)%Z
  /\ fst (run (get_links_from_serpapi E (PStr (lit "cafes")) (SERPAPI_KEY E) 5))
     = Done (filter truthy (map link_of (slice_to 5 rs))).
Proof.
  intros rs E. split; [lia |].
  destruct (@links_truncated_then_filtered E (PStr (lit "cafes"))
              (SERPAPI_KEY E) 5 initial) as [links [Hrun [_ Hlinks]]]; [lia |].
  unfold run. rewrite Hrun. simpl fst. f_equal.
  apply (Hlinks {| status_code := 200; json := Ok (Examples.organic rs) |}
           (Examples.organic rs) rs); reflexivity.
Defined.

(** C3 as stated fails: with six ranked entries of which the first has no
    link, filtering before truncating to 5 would return five links; the
    code truncates first and returns four. *)
Lemma truncation_precedes_filter :
  let rs := [Examples.hit_without_link; Examples.hit "https://1.example";
             Examples.hit "https://2.example"; Examples.hit "https://3.example";
             Examples.hit "https://4.example"; Examples.hit "https://5.example"] in
  let E := Examples.world (Examples.ok_json 200 (Examples.organic rs))
             Examples.unreachable Examples.offline in
  fst (run (get_links_from_serpapi E (PStr (lit "cafes")) (SERPAPI_KEY E) 5))
  = Done [PStr (lit "https://1.example"); PStr (lit "https://2.example");
          PStr (lit "https://3.example"); PStr (lit "https://4.example")]
  /\ resolve_filter_then_truncate rs 5
     = [PStr (lit "https://1.example"); PStr (lit "https://2.example");
        PStr (lit "https://3.example"); PStr (lit "https://4.example");
        PStr (lit "https://5.example")].
Proof. split; vm_compute; reflexivity. Qed.

(** Without usable results the parse yields no link. *)
Lemma parse_answer_unavailable (E : env) (query : pyval) (n : Z)
    (s s' : state) (links : list pyval) :
  search_unavailable n (search_answer E query n) = true ->
  parse_answer E query (SERPAPI_KEY E) n s = (Done links, s') ->
  links = [].
Proof.
  unfold search_unavailable, search_answer. intros U P.
  unfold parse_answer in P. repeat step_in P.
  rewrite Hstep in U.
  assert (error_status (status_code a) = false) as Hst.
  { unfold raise_for_status in Hstep0. unfold error_status.
    now destruct ((400 <=? status_code a) && (status_code a <? 600))%Z. }
  rewrite Hst, Hstep1 in U. simpl in U.
  destruct a1 as [ | | | | | | d]; try discriminate.
  unfold dict_get in Hstep2. unfold malformed_body, empty_result_set in U.
  destruct (lookup (lit "organic_results") d) as [v |];
    injection Hstep2 as <-.
  - destruct v as [ | | | | s0 | l0 | ]; try discriminate.
    + simpl in Hstep3. injection Hstep3 as <-.
      simpl in Hstep4. injection Hstep4 as <-.
      destruct (slice_to n s0) as [| c cs].
      * now injection P as <-.
      * simpl map in P. now rewrite link_comprehension_raises in P by reflexivity.
    + simpl in Hstep3. injection Hstep3 as <-.
      simpl in Hstep4. injection Hstep4 as <-.
      destruct (forallb is_object (slice_to n l0)) eqn:F.
      * destruct l0; try discriminate.
        unfold slice_to in P. rewrite !firstn_nil in P.
        destruct (0 <=? n)%Z; now injection P as <-.
      * now apply link_comprehension_malformed in P.
  - simpl in Hstep3. injection Hstep3 as <-.
    simpl in Hstep4. injection Hstep4 as <-.
    unfold slice_to in P. rewrite !firstn_nil in P.
    destruct (0 <=? n)%Z; now injection P as <-.
Qed.

Lemma get_links_unavailable (E : env) (query : pyval) (n : Z) (s : state) :
  search_unavailable n (search_answer E query n) = true ->
  get_links_from_serpapi E query (SERPAPI_KEY E) n s
  = (Done [], with_log s [search_call E query n]).
Proof.
  intro U. rewrite get_links_unfold. unfold search_call. f_equal. f_equal.
  destruct (parse_answer E query (SERPAPI_KEY E) n s) as [[l | e | ] s1] eqn:P;
    try reflexivity.
  simpl. eapply parse_answer_unavailable; eassumption.
Qed.

(* ================================================================== *)
(** * The Answer Synthesizer *)
(* ================================================================== *)

Lemma generated_text_strip (data : pyval) :
  generated_text data =
  match envelope_text data with
  | Ok v => str_strip v
  | Err e => Err e
  end.
Proof.
  unfold generated_text, envelope_text.
  repeat match goal with
         | |- context [match ?x with Ok _ => _ | Err _ => _ end] =>
             destruct x; try reflexivity
         end.
Qed.

Lemma error_marked_failed (E : env) (e : exn) :
  error_marked (gemini_request_failed E e) = true.
Proof. reflexivity. Qed.

Lemma error_marked_status (status : Z) :
  error_marked (gemini_error status) = true.
Proof. reflexivity. Qed.

(** The synthesizer makes exactly one outbound call and ends normally. *)
Lemma query_gemini_unfold (E : env) (question : pyval) (context : str)
    (api_key : str) (s : state) :
  query_gemini E question context api_key s =
  (Done match model_answer E question context api_key with
        | Err e => gemini_request_failed E e
        | Ok resp =>
            if (status_code resp =? 200)%Z then
              match json resp with
              | Err e => gemini_request_failed E e
              | Ok data =>
                  match generated_text data with
                  | Ok text => text
                  | Err e => gemini_request_failed E e
                  end
              end
            else gemini_error (status_code resp)
        end,
   with_log s [model_call E question context api_key]).
Proof.
  unfold query_gemini, model_answer, model_call, try_except, bind, record_call.
  destruct (requests_post E (gemini_url api_key)
              (payload (prompt E question context))) as [resp | e0];
    [| reflexivity].
  cbn [lift ret].
  destruct (status_code resp =? 200)%Z; [| reflexivity].
  destruct (json resp) as [data | e1]; [| reflexivity].
  cbn [lift ret].
  now destruct (generated_text data).
Qed.

(** C9: the Answer Synthesizer never raises.  It makes its one request and
    returns a string: for a request that raised, a status other than 200, a
    body that is not JSON or an envelope without the generated text, a
    string marked as an error; on success the model's generated text with
    the surrounding whitespace stripped. *)
Theorem query_gemini_never_raises :
  forall (E : env) (question : pyval) (context : str) (api_key : str)
         (s : state),
  exists answer,
    query_gemini E question context api_key s
    = (Done answer, with_log s [model_call E question context api_key])
    /\ (forall e, model_answer E question context api_key = Err e ->
          answer = gemini_request_failed E e /\ error_marked answer = true)
    /\ (forall resp, model_answer E question context api_key = Ok resp ->
          status_code resp <> 200%Z ->
          answer = gemini_error (status_code resp)
          /\ error_marked answer = true)
    /\ (forall resp e, model_answer E question context api_key = Ok resp ->
          status_code resp = 200%Z ->
          json resp = Err e ->
          answer = gemini_request_failed E e /\ error_marked answer = true)
    /\ (forall resp data e, model_answer E question context api_key = Ok resp ->
          status_code resp = 200%Z ->
          json resp = Ok data ->
          generated_text data = Err e ->
          answer = gemini_request_failed E e /\ error_marked answer = true)
    /\ (forall resp data text, model_answer E question context api_key = Ok resp ->
          status_code resp = 200%Z ->
          json resp = Ok data ->
          envelope_text data = Ok (PStr text) ->
          answer = strip text).
Proof.
  intros E question context api_key s. rewrite query_gemini_unfold.
  eexists. split; [reflexivity |].
  split; [| split; [| split; [| split]]].
  - intros e H. rewrite H. split; [reflexivity | apply error_marked_failed].
  - intros resp H St. rewrite H.
    apply Z.eqb_neq in St. rewrite St.
    split; [reflexivity | apply error_marked_status].
  - intros resp e H St J. rewrite H, St, J. simpl.
    split; [reflexivity | apply error_marked_failed].
  - intros resp data e H St J G. rewrite H, St, J, G. simpl.
    split; [reflexivity | apply error_marked_failed].
  - intros resp data text H St J G. rewrite H, St, J. simpl.
    rewrite generated_text_strip, G. reflexivity.
Qed.

(** The theorem at a model that answers 200 with a padded text. *)
Lemma query_gemini_never_raises_witness :
  let reply := Examples.ok_json 200
                 (Examples.envelope (PStr (lit "  Try the old town. "))) in
  let E := Examples.world Examples.offline Examples.unreachable reply in
  fst (run (query_gemini E (PStr (lit "best cafes")) (lit "Cafe A")
              (GEMINI_API_KEY E)))
  = Done (lit "Try the old town.").
Proof.
  intros reply E.
  destruct (query_gemini_never_raises E (PStr (lit "best cafes"))
              (lit "Cafe A") (GEMINI_API_KEY E) initial) as [answer [Hrun [_ [_ [_ [_ Hok]]]]]].
  unfold run. rewrite Hrun. simpl fst. f_equal.
  rewrite (Hok _ _ (lit "  Try the old town. ") eq_refl eq_refl eq_refl eq_refl).
  reflexivity.
Defined.

(* ================================================================== *)
(** * The Pipeline Orchestrator *)
(* ================================================================== *)

Section Orchestrator.

Variable E : env.

(** A falsy question ends the request at once. *)
Lemma handle_query_rejects (d : list (str * pyval)) :
  truthy (question_of d) = false ->
  run (handle_query E (PDict d)) = (Done missing_question, initial).
Proof.
  intro F. unfold run, handle_query, bind. cbn [dict_get lift ret].
  fold (question_of d). now rewrite F.
Qed.

(** With a truthy question the search is made, and the request goes on
    according to the links found. *)
Lemma handle_query_started (d : list (str * pyval)) (links : list pyval)
    (s1 : state) :
  truthy (question_of d) = true ->
  get_links_from_serpapi E (question_of d) (SERPAPI_KEY E) 5 initial
  = (Done links, s1) ->
  run (handle_query E (PDict d)) =
  match links with
  | [] => (Done no_search_results, s1)
  | _ :: _ =>
      match scrape_links E links 7 s1 with
      | (Done scraped, s2) =>
          if negb (nonempty (strip scraped))
          then (Done no_content_extracted, s2)
          else
            match query_gemini E (question_of d) scraped (GEMINI_API_KEY E) s2
            with
            | (Done answer, s3) =>
                (Done {| reply_status := 200; reply_answer := answer |}, s3)
            | (Raised e, s3) => (Raised e, s3)
            | (Continue, s3) => (Continue, s3)
            end
      | (Raised e, s2) => (Raised e, s2)
      | (Continue, s2) => (Continue, s2)
      end
  end.
Proof.
  intros T G. unfold run, handle_query.
  unfold bind at 1. cbn [dict_get lift ret]. fold (question_of d).
  rewrite T. cbn [negb]. unfold bind at 1. rewrite G.
  destruct links as [| l ls]; [reflexivity |].
  unfold bind at 1.
  destruct (scrape_links E (l :: ls) 7 s1) as [[scraped | e | ] s2];
    try reflexivity.
  destruct (negb (nonempty (strip scraped))); [reflexivity |].
  unfold bind.
  now destruct (query_gemini E (question_of d) scraped (GEMINI_API_KEY E) s2)
    as [[answer | e | ] s3].
Qed.

(** The calls of the extractor come after the calls already made. *)
Lemma scrape_links_log (links : list pyval) (t : Z) (s : state) :
  exists evs, log (snd (scrape_links E links t s)) = log s ++ evs.
Proof.
  destruct (session_cases E t) as [R | [e R]].
  - rewrite (@scrape_links_unfold E links t s R).
    destruct (url_loop_effect E t links (launched s))
      as [txt [visited [Hs _]]].
    destruct (for_ links (scrape_url E t) (launched s)) as [[[] | e | ] s1];
      simpl in Hs; subst s1; simpl; rewrite <- ?app_assoc; eauto.
  - rewrite (@scrape_links_refused E links t s e R). simpl. eauto.
Qed.

(** Every run with a truthy question begins with the search call. *)
Lemma handle_query_searches (d : list (str * pyval)) :
  truthy (question_of d) = true ->
  exists later,
    log (snd (run (handle_query E (PDict d))))
    = search_call E (question_of d) 5 :: later.
Proof.
  intro T.
  rewrite (handle_query_started d T
             (get_links_unfold E (question_of d) (SERPAPI_KEY E) 5 initial)).
  set (s1 := with_log initial _).
  destruct (match fst (parse_answer E (question_of d) (SERPAPI_KEY E) 5 initial)
            with Done l => l | _ => [] end) as [| l ls].
  - exists []. reflexivity.
  - destruct (scrape_links_log (l :: ls) 7 s1) as [evs Hevs].
    destruct (scrape_links E (l :: ls) 7 s1) as [[scraped | e | ] s2];
      simpl in Hevs; try (exists evs; exact Hevs).
    destruct (negb (nonempty (strip scraped)));
      [exists evs; exact Hevs |].
    rewrite query_gemini_unfold. simpl. rewrite Hevs.
    exists (evs ++ [model_call E (question_of d) scraped (GEMINI_API_KEY E)]).
    change (search_call E (question_of d) 5
            :: evs ++ [model_call E (question_of d) scraped (GEMINI_API_KEY E)])
      with ((search_call E (question_of d) 5 :: evs)
            ++ [model_call E (question_of d) scraped (GEMINI_API_KEY E)]).
    reflexivity.
Qed.

End Orchestrator.

Lemma absent_or_falsy_question (d : list (str * pyval)) :
  question_absent_or_falsy d -> truthy (question_of d) = false.
Proof.
  unfold question_absent_or_falsy, question_of.
  now destruct (lookup (lit "question") d).
Qed.

(** The falsy JSON values: empty string, null, false, 0, empty array (and
    also 0.0 and the empty object). *)
Lemma falsy_json_values :
  Forall (fun v => truthy v = false)
    [PStr []; PNone; PBool false; PInt 0; PList [];
     PFloat (S754_zero false); PDict []].
Proof. repeat constructor. Qed.

(** C10: for every request body in which ["question"] is absent or bound to
    a falsy JSON value, the handler answers 400 with the fixed
    missing-question message and has made no outbound call; two such bodies
    (say one without the key and one with an empty string) get the same
    response. *)
Theorem missing_or_falsy_question_rejected :
  forall (E : env) (d d' : list (str * pyval)),
    question_absent_or_falsy d ->
    question_absent_or_falsy d' ->
    run (handle_query E (PDict d)) = (Done missing_question, initial)
    /\ reply_status missing_question = 400%Z
    /\ log initial = []
    /\ run (handle_query E (PDict d')) = run (handle_query E (PDict d)).
Proof.
  intros E d d' H H'.
  apply absent_or_falsy_question in H, H'.
  rewrite !handle_query_rejects by assumption. now repeat split.
Qed.

(** The theorem at a body without the key and a body with an empty string. *)
Lemma missing_or_falsy_question_rejected_witness :
  let E := Examples.world Examples.offline Examples.unreachable Examples.offline in
  question_absent_or_falsy []
  /\ question_absent_or_falsy [(lit "question", PStr [])]
  /\ run (handle_query E (PDict [])) = (Done missing_question, initial)
  /\ run (handle_query E (Examples.ask (PStr [])))
     = run (handle_query E (PDict [])).
Proof.
  intro E. split; [exact I |]. split; [reflexivity |].
  destruct (@missing_or_falsy_question_rejected E
              [] [(lit "question", PStr [])] I eq_refl) as [H1 [_ [_ H2]]].
  split; assumption.
Defined.

(** C1 (amended): for every question string that is empty, the handler
    returns the client-error response and makes no outbound call: the
    pipeline never starts.  Every non-empty question string, also one that
    consists of whitespace only, passes the check, and the search call is
    made with it. *)
Theorem empty_question_rejected :
  forall (E : env) (d : list (str * pyval)) (q : str),
    lookup (lit "question") d = Some (PStr q) ->
    (q = [] ->
       run (handle_query E (PDict d)) = (Done missing_question, initial)
       /\ reply_status missing_question = 400%Z
       /\ log initial = [])
    /\ (q <> [] ->
          exists later,
            log (snd (run (handle_query E (PDict d))))
            = search_call E (PStr q) 5 :: later).
Proof.
  intros E d q Hq.
  assert (question_of d = PStr q) as Q by (unfold question_of; now rewrite Hq).
  split.
  - intros ->. rewrite handle_query_rejects; [now repeat split |].
    now rewrite Q.
  - intro Hne. rewrite <- Q. apply handle_query_searches.
    rewrite Q. destruct q; [contradiction | reflexivity].
Qed.

(** The theorem at the body [{"question": ""}]. *)
Lemma empty_question_rejected_witness :
  let E := Examples.world Examples.offline Examples.unreachable Examples.offline in
  lookup (lit "question") [(lit "question", PStr [])] = Some (PStr [])
  /\ run (handle_query E (Examples.ask (PStr [])))
     = (Done missing_question, initial).
Proof.
  intro E. split; [reflexivity |].
  destruct (@empty_question_rejected E [(lit "question", PStr [])] []
              eq_refl) as [H _].
  now destruct (H eq_refl).
Defined.

(** C1 as stated fails: a question of three spaces is blank after trimming,
    yet the handler does not answer with the client error; it calls the
    search API (which is down in this world) and answers 200. *)
Lemma whitespace_question_starts_pipeline :
  let E := Examples.world Examples.offline Examples.unreachable Examples.offline in
  let q := lit "   " in
  strip q = []
  /\ run (handle_query E (Examples.ask (PStr q)))
     = (Done no_search_results,
        with_log initial [search_call E (PStr q) 5])
  /\ run (handle_query E (Examples.ask (PStr q)))
     <> (Done missing_question, initial).
Proof. repeat split; try reflexivity. discriminate. Qed.

(** C5 (amended): when the search request raises, when its status is a 4xx
    or 5xx one, when the body is malformed, and when the organic-result set
    is empty, the Search Resolver returns the empty sequence rather than
    raising; the request's answer is then the fixed no-search-results
    message, and the search call is the only outbound call of the request:
    neither extraction nor synthesis is invoked. *)
Theorem no_results_when_search_unavailable :
  forall (E : env) (d : list (str * pyval)),
    truthy (question_of d) = true ->
    search_unavailable 5 (search_answer E (question_of d) 5) = true ->
    get_links_from_serpapi E (question_of d) (SERPAPI_KEY E) 5 initial
    = (Done [], with_log initial [search_call E (question_of d) 5])
    /\ run (handle_query E (PDict d))
       = (Done no_search_results,
          with_log initial [search_call E (question_of d) 5]).
Proof.
  intros E d T U.
  pose proof (get_links_unavailable E (question_of d) 5 initial U) as G.
  split; [exact G |].
  now rewrite (handle_query_started E d T G).
Qed.

(** The theorem at a search API that answers 503. *)
Lemma no_results_when_search_unavailable_witness :
  let down := Ok {| status_code := 503; json := Err JSONDecodeError |} in
  let E := Examples.world down Examples.unreachable Examples.offline in
  let d := [(lit "question", PStr (lit "best cafes in Mumbai"))] in
  truthy (question_of d) = true
  /\ search_unavailable 5 (search_answer E (question_of d) 5) = true
  /\ run (handle_query E (PDict d))
     = (Done no_search_results,
        with_log initial [search_call E (question_of d) 5]).
Proof.
  intros down E d. split; [reflexivity |]. split; [reflexivity |].
  now destruct (@no_results_when_search_unavailable E d eq_refl eq_refl).
Defined.

(** C5 as stated fails for a status outside 2xx that [raise_for_status]
    lets pass: an answer with status 300 and a result in its body makes the
    resolver return that link, and the request goes on to extraction. *)
Lemma redirect_status_is_not_a_failure :
  let answer := Examples.ok_json 300
                  (Examples.organic [Examples.hit "https://a.example"]) in
  let E := Examples.world answer Examples.unreachable Examples.offline in
  let q := PStr (lit "best cafes in Mumbai") in
  success_status 300 = false
  /\ fst (run (get_links_from_serpapi E q (SERPAPI_KEY E) 5))
     = Done [PStr (lit "https://a.example")]
  /\ run (handle_query E (Examples.ask q))
     = (Done no_content_extracted,
        {| extracted := []; visits := 1;
           log := [search_call E q 5; ChromeLaunch;
                   ChromeGet (PStr (lit "https://a.example")); ChromeQuit] |}).
Proof. repeat split; reflexivity. Qed.

(** When no candidate URL can be loaded the extractor returns the empty
    text, which is blank. *)
Lemma unreachable_links_extract_nothing (E : env) (t : Z)
    (links : list pyval) (s : state) :
  session_ready E t ->
  (forall n url, exists e, chrome_get E t n url = Err e
                           /\ is_WebDriverException e = true) ->
  exists st, scrape_links E links t s = (Done [], st).
Proof.
  intros HL Hnav. rewrite (@scrape_links_unfold E links t s HL).
  assert (forall s0, exists st,
             for_ links (scrape_url E t) s0 = (Done tt, st)
             /\ extracted st = extracted s0) as Hloop.
  { induction links as [| url links IH]; intro s0.
    - exists s0. now split.
    - cbn [for_]. rewrite scrape_url_unfold.
      destruct (Hnav (visits s0) url) as [e [-> ->]].
      destruct (IH (navigated s0 url [])) as [st [-> Hst]].
      exists st. split; [reflexivity |].
      rewrite Hst. simpl. now rewrite app_nil_r. }
  destruct (Hloop (launched s)) as [st [-> Hst]].
  simpl in Hst. rewrite Hst. eauto.
Qed.

(** C6: in every run in which the extracted text is blank (empty or
    whitespace only), the request's answer is the fixed
    no-content-extracted message, and no call to the language model has
    been made. *)
Theorem blank_extraction_reported :
  forall (E : env) (d : list (str * pyval)) (links : list pyval)
         (s1 s2 : state) (scraped : str),
    truthy (question_of d) = true ->
    get_links_from_serpapi E (question_of d) (SERPAPI_KEY E) 5 initial
    = (Done links, s1) ->
    links <> [] ->
    scrape_links E links 7 s1 = (Done scraped, s2) ->
    strip scraped = [] ->
    run (handle_query E (PDict d)) = (Done no_content_extracted, s2)
    /\ Forall (fun ev => ~ is_model_call ev) (log s2).
Proof.
  intros E d links s1 s2 scraped T G Hne S B. split.
  - rewrite (handle_query_started E d T G).
    destruct links as [| l ls]; [contradiction |].
    rewrite S, B. reflexivity.
  - rewrite (scrape_links_returned E links 7 s1 S).
    rewrite get_links_unfold in G. injection G as _ <-. simpl.
    constructor; [simpl; tauto |].
    constructor; [simpl; tauto |].
    apply Forall_app. split.
    + apply Forall_forall. intros ev Hin.
      apply in_map_iff in Hin as [u [<- _]]. simpl. tauto.
    + constructor; [simpl; tauto | constructor].
Qed.

(* ================================================================== *)
(** * The card strategy *)
(* ================================================================== *)

Lemma subfield_text_populated (f : subfield) (value : str) (s : state) :
  populated f value -> subfield_text f s = (Done value, s).
Proof.
  intros [els [el [raw [H1 [H2 [H3 [H4 H5]]]]]]].
  unfold subfield_text. rewrite (bind_Ok _ _ H1).
  destruct els as [| x els]; [contradiction |].
  rewrite (bind_Ok _ _ H3), (bind_Ok _ _ H4). now rewrite H5.
Qed.

Lemma subfield_text_absent (f : subfield) (s : state) :
  absent f -> subfield_text f s = (Done [], s).
Proof.
  intro H. unfold subfield_text. now rewrite (bind_Ok _ _ H).
Qed.

Lemma subfield_text_empty (f : subfield) (s : state) :
  empty_subfield f -> subfield_text f s = (Done [], s).
Proof.
  intros [H | H];
    [now apply subfield_text_absent | now apply subfield_text_populated].
Qed.

(** What the loop body does on a card with a name only, and on a card with
    nothing. *)
Lemma scrape_cafe_name_only (cafe : card) (s : state) (name : str) :
  name <> [] ->
  populated (card_name cafe) name ->
  absent (card_category cafe) ->
  absent (card_price cafe) ->
  scrape_cafe cafe s
  = (Done tt,
     with_text s
       (newline ++ lit "Name: " ++ name ++
        newline ++ lit "Category: " ++
        newline ++ lit "Price for two: " ++ newline)).
Proof.
  intros Hne Hn Hc Hp. unfold scrape_cafe.
  unfold bind at 1. rewrite (subfield_text_populated s Hn).
  unfold bind at 1. rewrite (subfield_text_absent s Hc).
  unfold bind at 1. rewrite (subfield_text_absent s Hp).
  destruct name as [| c name]; [contradiction | reflexivity].
Qed.

Lemma scrape_cafe_empty (cafe : card) (s : state) :
  empty_subfield (card_name cafe) ->
  empty_subfield (card_category cafe) ->
  empty_subfield (card_price cafe) ->
  scrape_cafe cafe s = (Done tt, s).
Proof.
  intros Hn Hc Hp. unfold scrape_cafe.
  unfold bind at 1. rewrite (subfield_text_empty s Hn).
  unfold bind at 1. rewrite (subfield_text_empty s Hc).
  unfold bind at 1. rewrite (subfield_text_empty s Hp).
  reflexivity.
Qed.

(** A loop that has gone through its first items goes on with the rest. *)
Lemma for_app_done (A : Type) (body : A -> M unit) (l1 l2 : list A) :
  forall s s1,
    for_ l1 body s = (Done tt, s1) ->
    for_ (l1 ++ l2) body s = for_ l2 body s1.
Proof.
  induction l1 as [| x l1 IH]; intros s s1 H.
  - now injection H as <-.
  - cbn [app for_] in *.
    destruct (body x s) as [[[] | e | ] s']; try discriminate;
      now apply IH.
Qed.

(** C8: on every page, for every listing card that the card strategy
    comes to (the cards found before it on the page having been processed
    without an exception) and on which only the name is populated, category
    and price-for-two being absent, the strategy appends the record
    [\nName: <name>\nCategory: \nPrice for two: \n] to the text -- a record
    that is not empty, spans several lines and holds the name with empty
    category and price fields -- and goes on with the cards after it; the
    record stays in the text whatever happens on those.  A card whose three
    sub-fields are all empty adds nothing: the strategy goes on with the
    cards after it from the same text. *)
Theorem card_with_name_only :
  forall (p : page) (before after : list card) (cafe : card) (s s1 : state),
    page_cafes p = Ok (before ++ cafe :: after) ->
    for_ before scrape_cafe s = (Done tt, s1) ->
    (forall name,
        name <> [] ->
        populated (card_name cafe) name ->
        absent (card_category cafe) ->
        absent (card_price cafe) ->
        let record := newline ++ lit "Name: " ++ name ++
                      newline ++ lit "Category: " ++
                      newline ++ lit "Price for two: " ++ newline in
        cafe_cards p s = for_ after scrape_cafe (with_text s1 record)
        /\ record <> []
        /\ exists later,
             extracted (snd (cafe_cards p s))
             = extracted s1 ++ record ++ later)
    /\ (empty_subfield (card_name cafe) ->
        empty_subfield (card_category cafe) ->
        empty_subfield (card_price cafe) ->
        cafe_cards p s = for_ after scrape_cafe s1).
Proof.
  intros p before after cafe s s1 Hp Hbefore.
  assert (cafe_cards p s
          = match scrape_cafe cafe s1 with
            | (Done _, s') | (Continue, s') => for_ after scrape_cafe s'
            | (Raised e, s') => (Raised e, s')
            end) as Hrun.
  { unfold cafe_cards. rewrite (bind_Ok _ _ Hp).
    now rewrite (@for_app_done card scrape_cafe before (cafe :: after)
                   s s1 Hbefore). }
  split.
  - intros name Hne Hn Hc Hpr record.
    rewrite Hrun, (@scrape_cafe_name_only cafe s1 name Hne Hn Hc Hpr).
    cbv beta iota. fold record.
    split; [reflexivity |]. split; [discriminate |].
    destruct (@text_only_for card after scrape_cafe text_only_scrape_cafe
                (with_text s1 record)) as [later Hlater].
    exists later. rewrite Hlater, with_text_app. reflexivity.
  - intros Hn Hc Hpr.
    now rewrite Hrun, (@scrape_cafe_empty cafe s1 Hn Hc Hpr).
Qed.

(** The theorem at a page with an empty card followed by a card that has a
    name and nothing else. *)
Lemma card_with_name_only_witness :
  let missing := {| sub_find_elements := Ok [];
                    sub_find_element := Err NoSuchElementException |} in
  let title := Examples.node "h4" " Blue Door Cafe " in
  let blank := {| card_name := missing; card_category := missing;
                  card_price := missing |} in
  let cafe := {| card_name := {| sub_find_elements := Ok [title];
                                 sub_find_element := Ok title |};
                 card_category := missing;
                 card_price := missing |} in
  let p := {| page_text_nodes := Ok []; page_cafes := Ok [blank; cafe];
              page_names := Ok []; page_ratings := Ok [];
              page_addresses := Ok []; page_tables := Ok [] |} in
  page_cafes p = Ok ([blank] ++ cafe :: [])
  /\ for_ [blank] scrape_cafe initial = (Done tt, initial)
  /\ populated (card_name cafe) (lit "Blue Door Cafe")
  /\ run (cafe_cards p)
     = (Done tt,
        with_text initial
          (newline ++ lit "Name: Blue Door Cafe" ++
           newline ++ lit "Category: " ++
           newline ++ lit "Price for two: " ++ newline)).
Proof.
  intros missing title blank cafe p.
  assert (populated (card_name cafe) (lit "Blue Door Cafe")) as P.
  { exists [title], title, (lit " Blue Door Cafe ").
    split; [reflexivity |]. split; [discriminate |].
    split; [reflexivity |]. split; reflexivity. }
  split; [reflexivity |]. split; [reflexivity |]. split; [exact P |].
  destruct (@card_with_name_only p [blank] [] cafe initial initial
              eq_refl eq_refl) as [H _].
  assert (lit "Blue Door Cafe" <> []) as Hne by discriminate.
  exact (proj1 (H (lit "Blue Door Cafe") Hne P eq_refl eq_refl)).
Defined.

(* ================================================================== *)
(** * The table strategy *)
(* ================================================================== *)

Lemma cell_texts (cs : list dom_cell) (s : state) :
  comprehension (fun cell => text <- lift (elem_text cell) ;; ret (strip text))
    (map cell_element cs) s
  = (Done (map trimmed cs), s).
Proof.
  induction cs as [| c cs IH]; [reflexivity |].
  cbn [map comprehension]. unfold bind at 1 2. cbn [cell_element elem_text lift ret].
  unfold bind at 1. now rewrite IH.
Qed.

Lemma existsb_partition (A : Type) (f p : A -> bool) (l : list A) :
  existsb f (filter p l ++ filter (fun x => negb (p x)) l) = existsb f l.
Proof.
  rewrite existsb_app. induction l as [| x l IH]; [reflexivity |].
  simpl. destruct (p x); simpl; rewrite <- IH;
    destruct (f x), (existsb f (filter p l)),
      (existsb f (filter (fun x => negb (p x)) l)); reflexivity.
Qed.

Lemma existsb_of_map (A B : Type) (f : B -> bool) (g : A -> B) (l : list A) :
  existsb f (map g l) = existsb (fun x => f (g x)) l.
Proof. induction l as [| x l IH]; [reflexivity |]. simpl. now rewrite IH. Qed.

Lemma scrape_row_of (r : dom_row) (s : state) :
  scrape_row (row_of r) s
  = (Done tt, if row_has_text r then with_text s (line_headers_first r) else s).
Proof.
  unfold scrape_row.
  rewrite (bind_Ok (r := row_th (row_of r)) _ _ eq_refl).
  rewrite (bind_Ok (r := row_td (row_of r)) _ _ eq_refl).
  cbv zeta. rewrite <- map_app. unfold bind at 1. rewrite cell_texts.
  rewrite existsb_of_map. unfold is_td.
  rewrite (existsb_partition (fun c => nonempty (trimmed c)) is_th r).
  fold (row_has_text r).
  now destruct (row_has_text r).
Qed.

Lemma scrape_rows_of (rows : list dom_row) :
  forall s, for_ (map row_of rows) scrape_row s
            = (Done tt, with_text s (table_lines rows)).
Proof.
  induction rows as [| r rows IH]; intro s.
  - simpl. now rewrite with_text_nil.
  - cbn [map for_]. rewrite scrape_row_of, IH.
    unfold table_lines. cbn [map List.concat].
    destruct (row_has_text r).
    + now rewrite with_text_app.
    + reflexivity.
Qed.

Lemma scrape_tables_of (tbls : list (list dom_row)) :
  forall s,
    for_ (map table_of tbls)
      (fun t => rows <- lift (table_tr t) ;; for_ rows scrape_row) s
    = (Done tt, with_text s (List.concat (map table_lines tbls))).
Proof.
  induction tbls as [| rows tbls IH]; intro s.
  - simpl. now rewrite with_text_nil.
  - cbn [map for_].
    rewrite (bind_Ok (r := table_tr (table_of rows)) _ _ eq_refl).
    rewrite scrape_rows_of, IH. cbn [map List.concat].
    now rewrite with_text_app.
Qed.

Lemma headers_lead_all_th (r : dom_row) :
  forallb is_th r = true -> headers_lead r = true.
Proof.
  induction r as [| c r IH]; [reflexivity |]. simpl.
  destruct (is_th c); [exact IH | discriminate].
Qed.

Lemma headers_lead_all_td (r : dom_row) :
  forallb is_td r = true -> headers_lead r = true.
Proof.
  destruct r as [| c r]; [reflexivity |]. simpl. unfold is_td at 1.
  destruct (is_th c); [discriminate | auto].
Qed.

Lemma all_td_filters (r : dom_row) :
  forallb is_td r = true -> filter is_th r = [] /\ filter is_td r = r.
Proof.
  induction r as [| c r IH]; [now split |].
  cbn [forallb filter]. intro H. apply andb_prop in H as [H1 H2].
  rewrite H1. unfold is_td in H1. destruct (is_th c); [discriminate |].
  destruct (IH H2) as [-> ->]. now split.
Qed.

Lemma headers_lead_order (r : dom_row) :
  headers_lead r = true -> filter is_th r ++ filter is_td r = r.
Proof.
  induction r as [| c r IH]; [reflexivity |].
  cbn [headers_lead filter].
  assert (is_td c = negb (is_th c)) as -> by reflexivity.
  destruct (is_th c); cbn [negb]; intro H.
  - cbn [app]. now rewrite IH.
  - destruct (all_td_filters r H) as [-> ->]. reflexivity.
Qed.

(** C7 (amended): on every table element the table strategy emits, for each
    row whose trimmed cells are not all empty, one line of its tab-separated
    trimmed cells, the header cells of the row first and its data cells
    after them, each group in document order; rows are taken in document
    order, and a row without text emits nothing.  The cells of a line are
    in document order whenever no data cell precedes a header cell in the
    row; in particular a table with one header row and one data row, each
    with some text, yields exactly the two lines in document order. *)
Theorem table_lines_headers_first :
  forall (p : page) (tbls : list (list dom_row)) (s : state),
    page_tables p = Ok (map table_of tbls) ->
    tables p s = (Done tt, with_text s (List.concat (map table_lines tbls)))
    /\ (forall r, headers_lead r = true ->
                  line_headers_first r = line_in_document_order r)
    /\ (forall header data,
          forallb is_th header = true ->
          forallb is_td data = true ->
          row_has_text header = true ->
          row_has_text data = true ->
          table_lines [header; data]
          = line_in_document_order header ++ line_in_document_order data).
Proof.
  intros p tbls s Hp.
  assert (forall r, headers_lead r = true ->
                    line_headers_first r = line_in_document_order r) as Hord.
  { intros r H. unfold line_headers_first. now rewrite headers_lead_order. }
  split; [| split].
  - unfold tables. rewrite (bind_Ok _ _ Hp). apply scrape_tables_of.
  - exact Hord.
  - intros header data Hh Hd Th Td. unfold table_lines.
    cbn [map List.concat]. rewrite Th, Td, app_nil_r.
    now rewrite !Hord by auto using headers_lead_all_th, headers_lead_all_td.
Qed.

(** The theorem at a table with a header row and a data row. *)
Lemma table_lines_headers_first_witness :
  let header := [(th, lit "Name"); (th, lit "Price")] in
  let data := [(td, lit " Latte "); (td, lit "120")] in
  let p := {| page_text_nodes := Ok []; page_cafes := Ok [];
              page_names := Ok []; page_ratings := Ok [];
              page_addresses := Ok [];
              page_tables := Ok (map table_of [[header; data]]) |} in
  page_tables p = Ok (map table_of [[header; data]])
  /\ extracted (snd (run (tables p)))
     = lit "Name" ++ tab ++ lit "Price" ++ newline
       ++ lit "Latte" ++ tab ++ lit "120" ++ newline.
Proof.
  intros header data p. split; [reflexivity |].
  destruct (@table_lines_headers_first p [[header; data]] initial eq_refl)
    as [Hrun _].
  unfold run. rewrite Hrun. reflexivity.
Defined.

(** C7 as stated fails: in a row whose data cell comes before its header
    cell, the emitted line has the header cell first, not the cells in
    document order. *)
Lemma data_cell_before_header_cell :
  let r := [(td, lit "1"); (th, lit "x")] in
  let p := {| page_text_nodes := Ok []; page_cafes := Ok [];
              page_names := Ok []; page_ratings := Ok [];
              page_addresses := Ok [];
              page_tables := Ok [table_of [r]] |} in
  extracted (snd (run (tables p))) = lit "x" ++ tab ++ lit "1" ++ newline
  /\ line_in_document_order r = lit "1" ++ tab ++ lit "x" ++ newline
  /\ extracted (snd (run (tables p))) <> line_in_document_order r.
Proof. repeat split; try reflexivity. discriminate. Qed.

(* ================================================================== *)
(** * Failures inside a strategy *)
(* ================================================================== *)

Lemma navigated_with_text (s : state) (url : pyval) (a b : str) :
  with_text (navigated s url a) b = navigated s url (a ++ b).
Proof. unfold with_text, navigated. simpl. now rewrite app_assoc. Qed.

Lemma text_only_strategies (p : page) : Forall (@text_only unit) (strategies p).
Proof.
  repeat constructor; auto with effects.
Qed.

Lemma run_seq_text (ms : list (M unit)) :
  Forall (@text_only unit) ms ->
  forall s s', run_seq ms s = Some s' -> exists txt, s' = with_text s txt.
Proof.
  induction 1 as [| m ms Hm _ IH]; intros s s' H; simpl in H.
  - injection H as <-. exists []. now rewrite with_text_nil.
  - destruct (Hm s) as [t1 H1].
    destruct (m s) as [[[] | e | ] s1]; try discriminate.
    simpl in H1. subst s1.
    destruct (IH _ _ H) as [t2 ->]. exists (t1 ++ t2).
    now rewrite with_text_app.
Qed.

(** C2 (amended): a failure raised inside one extraction strategy ends the
    work on that page: the strategies that come after it are not applied
    to the page.  It does not abort extraction for the other URLs, which
    are processed next, and it discards no text: what was accumulated
    before, what the earlier strategies extracted on the page and what the
    failing strategy had emitted before it failed are all kept. *)
Theorem strategy_failure_ends_page :
  forall (E : env) (t : Z) (url : pyval) (rest : list pyval) (s : state)
         (p : page) (before after : list (M unit)) (failing : M unit)
         (e : exn) (s1 s2 : state),
    chrome_get E t (visits s) url = Ok p ->
    strategies p = before ++ failing :: after ->
    run_seq before (navigated s url []) = Some s1 ->
    failing s1 = (Raised e, s2) ->
    scrape_url E t url s = (Continue, s2)
    /\ (exists txt1 txt2,
          s1 = navigated s url txt1 /\ s2 = navigated s url (txt1 ++ txt2))
    /\ for_ (url :: rest) (scrape_url E t) s
       = for_ rest (scrape_url E t) s2.
Proof.
  intros E t url rest s p before after failing e s1 s2 Hnav Hsplit Hbefore Hfail.
  assert (scrape_url E t url s = (Continue, s2)) as Hurl.
  { rewrite scrape_url_unfold, Hnav. unfold strategies in Hsplit.
    destruct before as [| b0 [| b1 [| b2 [| b3 before]]]];
      cbn [app] in Hsplit; injection Hsplit as ?; subst;
      cbn [run_seq] in Hbefore.
    - injection Hbefore as <-.
      unfold scrape_page, bind, try_except. now rewrite Hfail.
    - destruct (text_nodes p (navigated s url [])) as [[[] | e0 | ] s'] eqn:R0;
        try discriminate.
      injection Hbefore as <-.
      unfold scrape_page, bind, try_except. now rewrite R0, Hfail.
    - destruct (text_nodes p (navigated s url [])) as [[[] | e0 | ] s'] eqn:R0;
        try discriminate.
      destruct (cafe_cards p s') as [[[] | e1 | ] s''] eqn:R1;
        try discriminate.
      injection Hbefore as <-.
      unfold scrape_page, bind, try_except. now rewrite R0, R1, Hfail.
    - destruct (text_nodes p (navigated s url [])) as [[[] | e0 | ] s'] eqn:R0;
        try discriminate.
      destruct (cafe_cards p s') as [[[] | e1 | ] s''] eqn:R1;
        try discriminate.
      destruct (directory_listings p s'') as [[[] | e2 | ] s'''] eqn:R2;
        try discriminate.
      injection Hbefore as <-.
      unfold scrape_page, bind, try_except. now rewrite R0, R1, R2, Hfail.
    - destruct before; discriminate. }
  split; [exact Hurl |]. split.
  - pose proof (text_only_strategies p) as Hall. rewrite Hsplit in Hall.
    apply Forall_app in Hall as [Hb Hf].
    apply Forall_cons_iff in Hf as [Hf _].
    destruct (run_seq_text Hb _ Hbefore) as [txt1 ->].
    destruct (Hf (with_text (navigated s url []) txt1)) as [txt2 H2].
    rewrite Hfail in H2. simpl in H2. subst s2.
    exists txt1, txt2. now rewrite !navigated_with_text.
  - cbn [for_]. now rewrite Hurl.
Qed.

(** The theorem at a page whose heading is extracted and whose card query
    then fails. *)
Lemma strategy_failure_ends_page_witness :
  let p := flaky_page in
  let E := Examples.world Examples.offline (fun _ _ => Ok p) Examples.offline in
  let url := PStr (lit "https://a.example") in
  let s1 := navigated initial url (lit "Title" ++ newline) in
  chrome_get E 7 (visits initial) url = Ok p
  /\ strategies p = [text_nodes p] ++ cafe_cards p :: [directory_listings p; tables p]
  /\ run_seq [text_nodes p] (navigated initial url []) = Some s1
  /\ cafe_cards p s1 = (Raised StaleElementReferenceException, s1)
  /\ scrape_url E 7 url initial = (Continue, s1).
Proof.
  intros p E url s1.
  split; [reflexivity |]. split; [reflexivity |].
  split; [reflexivity |]. split; [reflexivity |].
  exact (proj1 (@strategy_failure_ends_page E 7 url [] initial p
                  [text_nodes p] [directory_listings p; tables p]
                  (cafe_cards p) StaleElementReferenceException s1 s1
                  eq_refl eq_refl eq_refl eq_refl)).
Defined.

(** C2 as stated fails: on a page whose card query fails, the table
    strategy is not applied; the extractor returns the heading alone,
    where isolated strategies would also have extracted the table line. *)
Lemma failed_strategy_blocks_later_ones :
  let p := flaky_page in
  let E := Examples.world Examples.offline (fun _ _ => Ok p) Examples.offline in
  let url := PStr (lit "https://a.example") in
  fst (run (scrape_links E [url] 7)) = Done (lit "Title" ++ newline)
  /\ extracted (snd (run (tables p))) = lit "x" ++ newline
  /\ extracted (snd (run (scrape_page_isolated p)))
     = lit "Title" ++ newline ++ lit "x" ++ newline.
Proof. repeat split. Qed.

(** The theorem at a request whose only search result cannot be loaded. *)
Lemma blank_extraction_reported_witness :
  let found := Examples.ok_json 200
                 (Examples.organic [Examples.hit "https://a.example"]) in
  let E := Examples.world found Examples.unreachable Examples.offline in
  let d := [(lit "question", PStr (lit "best cafes in Mumbai"))] in
  let links := [PStr (lit "https://a.example")] in
  let s1 := with_log initial [search_call E (question_of d) 5] in
  let s2 := {| extracted := []; visits := 1;
               log := [search_call E (question_of d) 5; ChromeLaunch;
                       ChromeGet (PStr (lit "https://a.example"));
                       ChromeQuit] |} in
  truthy (question_of d) = true
  /\ get_links_from_serpapi E (question_of d) (SERPAPI_KEY E) 5 initial
     = (Done links, s1)
  /\ links <> []
  /\ scrape_links E links 7 s1 = (Done [], s2)
  /\ strip [] = []
  /\ run (handle_query E (PDict d)) = (Done no_content_extracted, s2).
Proof.
  intros found E d links s1 s2.
  assert (links <> []) as Hne by discriminate.
  split; [reflexivity |]. split; [reflexivity |]. split; [exact Hne |].
  split; [reflexivity |]. split; [reflexivity |].
  exact (proj1 (@blank_extraction_reported E d links s1 s2 []
                  eq_refl eq_refl Hne eq_refl eq_refl)).
Defined.

(* ================================================================== *)
(** * Stripping and whitespace *)
(* ================================================================== *)

Lemma lstrip_cases (s : str) :
  lstrip s = [] \/ exists c t, lstrip s = c :: t /\ isspace c = false.
Proof.
  induction s as [| c s IH]; [now left |]. simpl.
  destruct (isspace c) eqn:C; [exact IH | right; eauto].
Qed.

Lemma lstrip_fixed (c : char) (t : str) :
  isspace c = false -> lstrip (c :: t) = c :: t.
Proof. intro H. simpl. now rewrite H. Qed.

Lemma lstrip_idempotent (s : str) : lstrip (lstrip s) = lstrip s.
Proof.
  destruct (lstrip_cases s) as [-> | [c [t [-> H]]]]; [reflexivity |].
  now apply lstrip_fixed.
Qed.

(** [lstrip] removes a run of whitespace from the front. *)
Lemma lstrip_split (s : str) :
  exists w, s = w ++ lstrip s /\ forallb isspace w = true.
Proof.
  induction s as [| c s [w [Hs Hw]]]; [now exists [] |]. simpl.
  destruct (isspace c) eqn:C.
  - exists (c :: w). simpl. rewrite C, Hw. split; [now f_equal | reflexivity].
  - now exists [].
Qed.

Lemma has_ink_app (a b : str) : has_ink (a ++ b) = has_ink a || has_ink b.
Proof. apply existsb_app. Qed.

Lemma has_ink_rev (s : str) : has_ink (rev s) = has_ink s.
Proof.
  induction s as [| c s IH]; [reflexivity |].
  simpl. rewrite has_ink_app, IH. simpl.
  now rewrite orb_false_r, orb_comm.
Qed.

Lemma has_ink_whitespace (w : str) :
  forallb isspace w = true -> has_ink w = false.
Proof.
  induction w as [| c w IH]; [reflexivity |]. simpl.
  intro H. apply andb_prop in H as [-> H]. now apply IH.
Qed.

Lemma has_ink_lstrip (s : str) : has_ink (lstrip s) = has_ink s.
Proof.
  destruct (lstrip_split s) as [w [Hs Hw]].
  rewrite Hs at 2. now rewrite has_ink_app, (has_ink_whitespace w Hw).
Qed.

(** Stripping keeps what there is to read. *)
Lemma has_ink_strip (s : str) : has_ink (strip s) = has_ink s.
Proof.
  unfold strip, rstrip.
  now rewrite has_ink_rev, has_ink_lstrip, has_ink_rev, has_ink_lstrip.
Qed.

Lemma lstrip_blank (s : str) : has_ink s = false -> lstrip s = [].
Proof.
  intro H. destruct (lstrip_cases s) as [E | [c [t [E C]]]]; [exact E |].
  rewrite <- has_ink_lstrip, E in H. simpl in H. now rewrite C in H.
Qed.

(** A text strips to nothing exactly when it is all whitespace. *)
Lemma strip_blank_iff (s : str) : strip s = [] <-> has_ink s = false.
Proof.
  split; intro H.
  - now rewrite <- has_ink_strip, H.
  - unfold strip, rstrip. now rewrite (lstrip_blank s H).
Qed.

Lemma nonempty_strip_ink (s : str) :
  nonempty (strip s) = true -> has_ink (strip s) = true.
Proof.
  intro H. rewrite has_ink_strip.
  destruct (has_ink s) eqn:I; [reflexivity |].
  apply strip_blank_iff in I. now rewrite I in H.
Qed.

(** [strip] is idempotent: stripped text has nothing left to strip. *)
Lemma strip_idempotent (s : str) : strip (strip s) = strip s.
Proof.
  assert (lstrip (strip s) = strip s) as L.
  { unfold strip, rstrip.
    destruct (lstrip_split (rev (lstrip s))) as [w [Hs Hw]].
    set (x := lstrip (rev (lstrip s))) in *.
    assert (lstrip s = rev x ++ rev w) as Hu.
    { rewrite <- rev_app_distr, <- Hs. now rewrite rev_involutive. }
    destruct (rev x) as [| c t] eqn:X; [reflexivity |].
    destruct (lstrip_cases s) as [E | [c' [t' [E C]]]].
    - rewrite E in Hu. discriminate.
    - rewrite E in Hu. injection Hu as -> _. now apply lstrip_fixed. }
  unfold strip at 1. rewrite L. unfold strip, rstrip.
  now rewrite rev_involutive, lstrip_idempotent.
Qed.

(** On text that is already stripped, as [scrape_links] passes it,
    [is_valid_text] asks for a non-empty text that is not a byline. *)
Lemma is_valid_text_stripped (raw : str) :
  is_valid_text (strip raw)
  = nonempty (strip raw) && negb (startswith (strip raw) (lit "By ")).
Proof.
  unfold is_valid_text. rewrite strip_idempotent.
  destruct (strip raw); reflexivity.
Qed.

Lemma is_valid_text_ink (text : str) :
  is_valid_text text = true -> has_ink text = true.
Proof.
  unfold is_valid_text. intro H.
  apply andb_prop in H as [H _]. apply andb_prop in H as [_ H].
  destruct (has_ink text) eqn:I; [reflexivity |].
  apply strip_blank_iff in I. now rewrite I in H.
Qed.

(* ================================================================== *)
(** * What the extractor accumulates *)
(* ================================================================== *)

Lemma fragmentary_nil : fragmentary [].
Proof. now left. Qed.

Lemma fragmentary_app (a b : str) :
  fragmentary a -> fragmentary b -> fragmentary (a ++ b).
Proof.
  intros [-> | [Ia [pa Ha]]] [-> | [Ib [pb Hb]]].
  - now left.
  - right. split; [exact Ib | now exists pb].
  - rewrite app_nil_r. right. split; [exact Ia | now exists pa].
  - right. split.
    + now rewrite has_ink_app, Ia.
    + exists (a ++ pb). now rewrite Hb, app_assoc.
Qed.

Lemma fragmentary_line (body : str) :
  has_ink body = true -> fragmentary (body ++ newline).
Proof.
  intro H. right. split; [| now exists body].
  now rewrite has_ink_app, H.
Qed.

Section FragmentCombinators.

Variables A B : Type.

Lemma emits_stateless (m : M A) : stateless m -> emits_fragments m.
Proof.
  intros [r Hm] s. exists []. rewrite Hm, with_text_nil.
  split; [now destruct r | apply fragmentary_nil].
Qed.

Lemma emits_lift (r : res A) : emits_fragments (lift r).
Proof. apply emits_stateless. apply stateless_lift. Qed.

Lemma emits_ret (a : A) : emits_fragments (ret a).
Proof. apply emits_stateless. apply stateless_ret. Qed.

Lemma emits_continue : emits_fragments (@continue_ A).
Proof.
  intro s. exists []. simpl. rewrite with_text_nil.
  split; [reflexivity | apply fragmentary_nil].
Qed.

Lemma emits_bind (m : M A) (k : A -> M B) :
  emits_fragments m -> (forall a, emits_fragments (k a)) ->
  emits_fragments (bind m k).
Proof.
  intros Hm Hk s. unfold bind. destruct (Hm s) as [t1 [H1 F1]].
  destruct (m s) as [[a | e | ] s1]; simpl in H1; subst s1.
  - destruct (Hk a (with_text s t1)) as [t2 [H2 F2]].
    exists (t1 ++ t2). rewrite H2, with_text_app.
    split; [reflexivity | now apply fragmentary_app].
  - now exists t1.
  - now exists t1.
Qed.

Lemma emits_try (body : M A) (catches : exn -> bool) (h : exn -> M A) :
  emits_fragments body -> (forall e, emits_fragments (h e)) ->
  emits_fragments (try_except body catches h).
Proof.
  intros Hb Hh s. unfold try_except. destruct (Hb s) as [t1 [H1 F1]].
  destruct (body s) as [[a | e | ] s1]; simpl in H1; subst s1.
  - now exists t1.
  - destruct (catches e).
    + destruct (Hh e (with_text s t1)) as [t2 [H2 F2]].
      exists (t1 ++ t2). rewrite H2, with_text_app.
      split; [reflexivity | now apply fragmentary_app].
    + now exists t1.
  - now exists t1.
Qed.

Lemma emits_for (l : list A) (body : A -> M unit) :
  (forall x, emits_fragments (body x)) -> emits_fragments (for_ l body).
Proof.
  intro Hb. induction l as [| x l IH]; intro s; simpl.
  - exists []. rewrite with_text_nil. split; [reflexivity | apply fragmentary_nil].
  - destruct (Hb x s) as [t1 [H1 F1]].
    destruct (body x s) as [[[] | e | ] s1]; simpl in H1; subst s1.
    + destruct (IH (with_text s t1)) as [t2 [H2 F2]].
      exists (t1 ++ t2). rewrite H2, with_text_app.
      split; [reflexivity | now apply fragmentary_app].
    + now exists t1.
    + destruct (IH (with_text s t1)) as [t2 [H2 F2]].
      exists (t1 ++ t2). rewrite H2, with_text_app.
      split; [reflexivity | now apply fragmentary_app].
Qed.

End FragmentCombinators.

Lemma emits_emit (txt : str) : fragmentary txt -> emits_fragments (emit txt).
Proof. intros F s. now exists txt. Qed.

Lemma emits_text_nodes (p : page) : emits_fragments (text_nodes p).
Proof.
  unfold text_nodes.
  apply emits_bind; [apply emits_lift | intro elems].
  apply emits_for. intro el.
  apply emits_bind; [apply emits_lift | intro tag].
  apply emits_bind; [apply emits_lift | intro text]. cbv zeta.
  destruct (str_eqb (lower tag) (lit "a")).
  - apply emits_bind; [apply emits_lift | intros [h |]];
      [| apply emits_ret].
    destruct (nonempty (strip text) && nonempty h); [| apply emits_ret].
    apply emits_emit. right. split; [reflexivity |].
    exists (lit "[" ++ strip text ++ lit "](" ++ h ++ lit ")").
    now rewrite <- !app_assoc.
  - destruct (is_valid_text (strip text)) eqn:V; [| apply emits_ret].
    apply emits_emit, fragmentary_line. now apply is_valid_text_ink.
Qed.

Lemma stateless_subfield_text (f : subfield) : stateless (subfield_text f).
Proof.
  unfold subfield_text.
  apply stateless_bind; [apply stateless_lift | intros [| x els]];
    [apply stateless_ret |].
  apply stateless_bind; [apply stateless_lift | intro el].
  apply stateless_bind; [apply stateless_lift | intro text].
  apply stateless_ret.
Qed.

Lemma emits_cafe_cards (p : page) : emits_fragments (cafe_cards p).
Proof.
  unfold cafe_cards.
  apply emits_bind; [apply emits_lift | intro cafes].
  apply emits_for. intro cafe. unfold scrape_cafe.
  apply emits_bind;
    [apply emits_stateless, stateless_subfield_text | intro name].
  apply emits_bind;
    [apply emits_stateless, stateless_subfield_text | intro category].
  apply emits_bind;
    [apply emits_stateless, stateless_subfield_text | intro price].
  destruct (nonempty name || nonempty category || nonempty price);
    [| apply emits_ret].
  apply emits_emit. right. split; [reflexivity |]. unfold card_record.
  exists (newline ++ lit "Name: " ++ name ++
          newline ++ lit "Category: " ++ category ++
          newline ++ lit "Price for two: " ++ price).
  now rewrite <- !app_assoc.
Qed.

Lemma stateless_item_text (l : list element) (i : nat) :
  stateless (item_text l i).
Proof.
  unfold item_text. destruct (nth_error l i); [| apply stateless_ret].
  apply stateless_bind; [apply stateless_lift | intro; apply stateless_ret].
Qed.

Lemma emits_directory_listings (p : page) :
  emits_fragments (directory_listings p).
Proof.
  unfold directory_listings.
  apply emits_bind; [apply emits_lift | intro names].
  apply emits_bind; [apply emits_lift | intro ratings].
  apply emits_bind; [apply emits_lift | intro addresses].
  apply emits_for. intro i.
  apply emits_bind; [apply emits_stateless, stateless_item_text | intro name].
  apply emits_bind; [apply emits_stateless, stateless_item_text | intro rating].
  apply emits_bind; [apply emits_stateless, stateless_item_text | intro address].
  destruct (nonempty name || nonempty rating || nonempty address);
    [| apply emits_ret].
  apply emits_emit. right. split; [reflexivity |]. unfold listing_record.
  exists (newline ++ lit "Name: " ++ name ++
          newline ++ lit "Rating: " ++ rating ++
          newline ++ lit "Address: " ++ address).
  now rewrite <- !app_assoc.
Qed.

(** One step of a computation in the goal, by cases on the result of the
    call it starts with. *)
Ltac step :=
  match goal with
  | |- context [bind (lift ?r) ?k ?s] =>
      let a := fresh "a" in
      let e := fresh "e" in
      let H := fresh "Hstep" in
      let Hb := fresh "Hb" in
      destruct (bind_cases r k s) as [[a [H Hb]] | [e [H Hb]]];
      rewrite Hb; clear Hb
  end.

Lemma stateless_comprehension (A B : Type) (f : A -> M B) (l : list A) :
  (forall x, stateless (f x)) -> stateless (comprehension f l).
Proof.
  intro Hf. induction l as [| x l IH]; simpl.
  - apply stateless_ret.
  - apply stateless_bind; [apply Hf | intro y].
    apply stateless_bind; [exact IH | intro ys]. apply stateless_ret.
Qed.

(** The cell texts of a row are stripped texts. *)
Lemma cell_texts_stripped (cells : list element) :
  forall s texts s',
    comprehension (fun cell => text <- lift (elem_text cell) ;; ret (strip text))
      cells s = (Done texts, s') ->
    exists raws, texts = map strip raws.
Proof.
  induction cells as [| c cells IH]; intros s texts s' H.
  - injection H as <- _. now exists [].
  - cbn [comprehension] in H. unfold bind at 1 in H.
    destruct (bind_cases (elem_text c) (fun text => ret (strip text)) s)
      as [[raw [_ Hb]] | [e [_ Hb]]]; rewrite Hb in H; [| discriminate].
    cbn [ret] in H. unfold bind at 1 in H.
    destruct (comprehension _ cells s) as [[ys | e | ] s1] eqn:R;
      try discriminate.
    injection H as <- _. destruct (IH _ _ _ R) as [raws ->].
    now exists (raw :: raws).
Qed.

Lemma has_ink_join (sep : str) (parts : list str) :
  existsb has_ink parts = true -> has_ink (join sep parts) = true.
Proof.
  induction parts as [| p parts IH]; [discriminate |].
  destruct parts as [| q parts]; simpl existsb.
  - now rewrite orb_false_r.
  - intro H. change (join sep (p :: q :: parts))
      with (p ++ sep ++ join sep (q :: parts)).
    rewrite !has_ink_app. destruct (has_ink p); [reflexivity |].
    simpl in H. rewrite (IH H). now rewrite orb_true_r.
Qed.

Lemma stripped_nonempty_ink (raws : list str) :
  existsb nonempty (map strip raws) = true ->
  existsb has_ink (map strip raws) = true.
Proof.
  induction raws as [| r raws IH]; [discriminate |]. simpl.
  intro H. apply orb_prop in H as [H | H].
  - now rewrite (nonempty_strip_ink r H).
  - rewrite (IH H). apply orb_true_r.
Qed.

Lemma emits_scrape_row (r : row) : emits_fragments (scrape_row r).
Proof.
  intro s. unfold scrape_row.
  step; [| exists []; rewrite with_text_nil; split;
           [reflexivity | apply fragmentary_nil]].
  step; [| exists []; rewrite with_text_nil; split;
           [reflexivity | apply fragmentary_nil]].
  cbv zeta. unfold bind at 1.
  assert (stateless
            (comprehension
               (fun cell => text <- lift (elem_text cell) ;; ret (strip text))
               (a ++ a0))) as [out Hr].
  { apply stateless_comprehension. intro cell.
    apply stateless_bind; [apply stateless_lift | intro; apply stateless_ret]. }
  pose proof (cell_texts_stripped (a ++ a0) s) as Hraw.
  rewrite Hr in *. destruct out as [texts | e]; cbn [lift ret raise] in *.
  - destruct (Hraw texts s eq_refl) as [raws ->].
    destruct (existsb nonempty (map strip raws)) eqn:X.
    + exists (join tab (map strip raws) ++ newline). split; [reflexivity |].
      apply fragmentary_line, has_ink_join. now apply stripped_nonempty_ink.
    + exists []. rewrite with_text_nil.
      split; [reflexivity | apply fragmentary_nil].
  - exists []. rewrite with_text_nil. split; [reflexivity | apply fragmentary_nil].
Qed.

Lemma emits_tables (p : page) : emits_fragments (tables p).
Proof.
  unfold tables.
  apply emits_bind; [apply emits_lift | intro tbls].
  apply emits_for. intro t.
  apply emits_bind; [apply emits_lift | intro rows].
  apply emits_for. apply emits_scrape_row.
Qed.

Lemma emits_caught (m : M unit) :
  emits_fragments m ->
  emits_fragments (try_except m any_exception (fun _ => continue_)).
Proof.
  intro H. apply emits_try; [exact H | intro; apply emits_continue].
Qed.

Lemma emits_scrape_page (p : page) : emits_fragments (scrape_page p).
Proof.
  unfold scrape_page.
  apply emits_bind; [apply emits_caught, emits_text_nodes | intros _].
  apply emits_bind; [apply emits_caught, emits_cafe_cards | intros _].
  apply emits_bind; [apply emits_caught, emits_directory_listings | intros _].
  apply emits_caught, emits_tables.
Qed.

Lemma scrape_url_fragments (E : env) (t : Z) (url : pyval) (s : state) :
  exists txt,
    snd (scrape_url E t url s) = navigated s url txt /\ fragmentary txt.
Proof.
  rewrite scrape_url_unfold.
  destruct (chrome_get E t (visits s) url) as [p | e].
  - destruct (emits_scrape_page p (navigated s url [])) as [txt [H F]].
    exists txt. split; [| exact F].
    rewrite H. now rewrite navigated_with_text.
  - exists []. split; [| apply fragmentary_nil].
    now destruct (is_WebDriverException e).
Qed.

Lemma url_loop_fragments (E : env) (t : Z) (links : list pyval) :
  forall s, exists txt,
    extracted (snd (for_ links (scrape_url E t) s)) = extracted s ++ txt
    /\ fragmentary txt.
Proof.
  induction links as [| url links IH]; intro s.
  - exists []. simpl. rewrite app_nil_r. split; [reflexivity | apply fragmentary_nil].
  - cbn [for_]. destruct (scrape_url_fragments E t url s) as [t1 [H1 F1]].
    destruct (scrape_url E t url s) as [[[] | e | ] s1];
      simpl in H1; subst s1.
    + destruct (IH (navigated s url t1)) as [t2 [H2 F2]].
      exists (t1 ++ t2). rewrite H2. simpl. rewrite app_assoc.
      split; [reflexivity | now apply fragmentary_app].
    + now exists t1.
    + destruct (IH (navigated s url t1)) as [t2 [H2 F2]].
      exists (t1 ++ t2). rewrite H2. simpl. rewrite app_assoc.
      split; [reflexivity | now apply fragmentary_app].
Qed.

Lemma scrape_links_fragmentary (E : env) (links : list pyval) (t : Z)
    (s st : state) (txt : str) :
  scrape_links E links t s = (Done txt, st) -> fragmentary txt.
Proof.
  intro H. destruct (session_cases E t) as [R | [e R]].
  - rewrite (@scrape_links_unfold E links t s R) in H.
    destruct (url_loop_fragments E t links (launched s)) as [frag [Hx F]].
    destruct (for_ links (scrape_url E t) (launched s)) as [[[] | e | ] s1];
      try discriminate.
    injection H as <- _. simpl in Hx. now rewrite Hx.
  - rewrite (@scrape_links_refused E links t s e R) in H. discriminate.
Qed.

(** X1: whatever the pages hold, the text the Content Extractor returns is
    either empty or contains a character that is not whitespace and ends
    with a newline.  It is therefore never blank without being empty: the
    handler's test [not scraped.strip()] holds only when nothing at all was
    extracted. *)
Theorem extracted_text_empty_or_inked :
  forall (E : env) (links : list pyval) (t : Z) (s st : state) (txt : str),
    scrape_links E links t s = (Done txt, st) ->
    (txt = [] \/ (has_ink txt = true /\ exists pre, txt = pre ++ newline))
    /\ (strip txt = [] -> txt = []).
Proof.
  intros E links t s st txt H.
  pose proof (scrape_links_fragmentary E links t s H) as F.
  split; [exact F |].
  intro B. destruct F as [-> | [I _]]; [reflexivity |].
  apply strip_blank_iff in B. congruence.
Qed.

(** The theorem at a page with a heading and a table, whose card query
    fails. *)
Lemma extracted_text_empty_or_inked_witness :
  let E := Examples.world Examples.offline (fun _ _ => Ok flaky_page)
             Examples.offline in
  let url := PStr (lit "https://a.example") in
  let st := {| extracted := lit "Title" ++ newline; visits := 1;
               log := [ChromeLaunch; ChromeGet url; ChromeQuit] |} in
  scrape_links E [url] 7 initial = (Done (lit "Title" ++ newline), st)
  /\ has_ink (lit "Title" ++ newline) = true.
Proof.
  intros E url st.
  assert (scrape_links E [url] 7 initial = (Done (lit "Title" ++ newline), st))
    as H by reflexivity.
  split; [exact H |].
  destruct (@extracted_text_empty_or_inked E [url] 7 initial st _ H)
    as [[F | [I _]] _]; [discriminate F | exact I].
Defined.

(* ================================================================== *)
(** * Text nodes and directory listings *)
(* ================================================================== *)

(** X2: on a page whose headings, paragraphs and anchors can all be read,
    the generic strategy never raises and appends, in document order, one
    fragment per element: an anchor gives [[text](href)] and a newline when
    both its trimmed text and its href are non-empty, and nothing otherwise
    (an anchor never counts as plain text); any other element gives its
    trimmed text and a newline when that text is non-empty and does not
    start with ["By "], and nothing otherwise. *)
Theorem text_nodes_fragments :
  forall (p : page) (ns : list dom_node) (s : state),
    page_text_nodes p = Ok (map node_element ns) ->
    text_nodes p s
    = (Done tt, with_text s (List.concat (map node_fragment ns))).
Proof.
  intros p ns s Hp. unfold text_nodes. rewrite (bind_Ok _ _ Hp).
  match goal with
  | |- for_ _ ?body _ = _ =>
      assert (forall n s0,
                 body (node_element n) s0
                 = (Done tt, with_text s0 (node_fragment n))) as Hbody
  end.
  { intros n s0.
    rewrite (bind_Ok (r := elem_tag_name (node_element n)) _ _ eq_refl).
    rewrite (bind_Ok (r := elem_text (node_element n)) _ _ eq_refl).
    cbv zeta. unfold node_fragment.
    destruct (str_eqb (lower (node_tag n)) (lit "a")).
    - rewrite (bind_Ok (r := elem_href (node_element n)) _ _ eq_refl).
      cbn [node_element elem_href].
      destruct (node_href n) as [h |];
        [| cbn [ret]; now rewrite with_text_nil].
      destruct (nonempty (strip (node_text n)) && nonempty h);
        [reflexivity | cbn [ret]; now rewrite with_text_nil].
    - rewrite is_valid_text_stripped.
      destruct (nonempty (strip (node_text n))
                && negb (startswith (strip (node_text n)) (lit "By ")));
        [reflexivity | cbn [ret]; now rewrite with_text_nil]. }
  clear Hp. revert s. induction ns as [| n ns IH]; intro s.
  - simpl. now rewrite with_text_nil.
  - cbn [map for_ List.concat]. rewrite Hbody, IH.
    now rewrite with_text_app.
Qed.

(** The theorem at a page with a headline, a byline, a link and a link
    without target. *)
Lemma text_nodes_fragments_witness :
  let ns := [ {| node_tag := lit "h1"; node_text := lit " Best cafes ";
                 node_href := None |};
              {| node_tag := lit "p"; node_text := lit "By A. Writer";
                 node_href := None |};
              {| node_tag := lit "a"; node_text := lit "Menu";
                 node_href := Some (lit "https://a.example/menu") |};
              {| node_tag := lit "a"; node_text := lit "Top";
                 node_href := None |} ] in
  let p := {| page_text_nodes := Ok (map node_element ns);
              page_cafes := Ok []; page_names := Ok [];
              page_ratings := Ok []; page_addresses := Ok [];
              page_tables := Ok [] |} in
  page_text_nodes p = Ok (map node_element ns)
  /\ extracted (snd (run (text_nodes p)))
     = lit "Best cafes" ++ newline
       ++ lit "[Menu](https://a.example/menu)" ++ newline.
Proof.
  intros ns p. split; [reflexivity |].
  unfold run. rewrite (@text_nodes_fragments p ns initial eq_refl).
  reflexivity.
Defined.

Lemma for_ext_in (A : Type) (l : list A) (body body' : A -> M unit) :
  (forall x, In x l -> body x = body' x) ->
  forall s, for_ l body s = for_ l body' s.
Proof.
  induction l as [| x l IH]; intros H s; [reflexivity |].
  cbn [for_]. rewrite (H x (or_introl eq_refl)).
  destruct (body' x s) as [[[] | e | ] s1]; try reflexivity;
    apply IH; intros y Hy; apply H; now right.
Qed.

Lemma nth_error_of_firstn (A : Type) (l l' : list A) (n i : nat) :
  i < n -> firstn n l = firstn n l' -> nth_error l i = nth_error l' i.
Proof.
  intros Hi H.
  assert (nth_error (firstn n l) i = nth_error (firstn n l') i) as Hn
    by now rewrite H.
  rewrite !nth_error_firstn in Hn.
  apply Nat.ltb_lt in Hi. now rewrite Hi in Hn.
Qed.

(** X3: the business-directory strategy is driven by the names: it looks at
    ratings and addresses only at the positions of the names, so ratings and
    addresses found beyond the last name change nothing (two pages with the
    same names and the same first [len(names)] ratings and addresses give
    the same result), and when no name is found nothing is emitted and
    nothing is read. *)
Theorem directory_listings_follow_names :
  forall (p p' : page) (names ratings ratings' addresses addresses' : list element)
         (s : state),
    page_names p = Ok names -> page_names p' = Ok names ->
    page_ratings p = Ok ratings -> page_ratings p' = Ok ratings' ->
    page_addresses p = Ok addresses -> page_addresses p' = Ok addresses' ->
    firstn (List.length names) ratings = firstn (List.length names) ratings' ->
    firstn (List.length names) addresses
    = firstn (List.length names) addresses' ->
    directory_listings p s = directory_listings p' s
    /\ (names = [] -> directory_listings p s = (Done tt, s)).
Proof.
  intros p p' names ratings ratings' addresses addresses' s
    Hn Hn' Hr Hr' Ha Ha' Fr Fa.
  unfold directory_listings.
  rewrite (bind_Ok _ _ Hn), (bind_Ok _ _ Hr), (bind_Ok _ _ Ha).
  rewrite (bind_Ok _ _ Hn'), (bind_Ok _ _ Hr'), (bind_Ok _ _ Ha').
  split.
  - apply for_ext_in. intros i Hi. apply in_seq in Hi.
    unfold item_text.
    rewrite (nth_error_of_firstn ratings ratings' (n := List.length names))
      by (assumption || lia).
    rewrite (nth_error_of_firstn addresses addresses' (n := List.length names))
      by (assumption || lia).
    reflexivity.
  - intros ->. reflexivity.
Qed.

(** The theorem at two pages with one name, the second with a stray
    second rating. *)
Lemma directory_listings_follow_names_witness :
  let name := Examples.node "h3" "Cafe Uno" in
  let rating := Examples.node "li" "4.5" in
  let stray := Examples.node "li" "3.0" in
  let p := {| page_text_nodes := Ok []; page_cafes := Ok [];
              page_names := Ok [name]; page_ratings := Ok [rating];
              page_addresses := Ok []; page_tables := Ok [] |} in
  let p' := {| page_text_nodes := Ok []; page_cafes := Ok [];
               page_names := Ok [name]; page_ratings := Ok [rating; stray];
               page_addresses := Ok []; page_tables := Ok [] |} in
  firstn 1 [rating] = firstn 1 [rating; stray]
  /\ run (directory_listings p) = run (directory_listings p')
  /\ extracted (snd (run (directory_listings p')))
     = newline ++ lit "Name: Cafe Uno" ++ newline ++ lit "Rating: 4.5"
       ++ newline ++ lit "Address: " ++ newline.
Proof.
  intros name rating stray p p'. split; [reflexivity |].
  split; [| reflexivity].
  exact (proj1 (@directory_listings_follow_names p p' [name]
                  [rating] [rating; stray] [] [] initial
                  eq_refl eq_refl eq_refl eq_refl eq_refl eq_refl
                  eq_refl eq_refl)).
Defined.

(* ================================================================== *)
(** * More on the Search Resolver *)
(* ================================================================== *)

Lemma link_comprehension_truthy (rs : list pyval) :
  forall s links s',
    comprehension_if
      (fun r => lift (dict_get r (lit "link") PNone))
      (fun r => l <- lift (dict_get r (lit "link") PNone) ;; ret (truthy l))
      rs s
    = (Done links, s') ->
    Forall (fun v => truthy v = true) links.
Proof.
  induction rs as [| r rs IH]; intros s links s' H.
  - injection H as <- _. constructor.
  - destruct (is_object r) eqn:O.
    + destruct r as [ | | | | | | d]; try discriminate.
      cbn [comprehension_if dict_get] in H.
      unfold bind at 1 2 in H. cbn [lift ret] in H.
      destruct (truthy (match lookup (lit "link") d with
                        | Some x => x | None => PNone end)) eqn:T.
      * unfold bind at 1 in H. cbn [lift ret] in H. unfold bind at 1 in H.
        destruct (comprehension_if _ _ rs s) as [[ys | e | ] s1] eqn:R;
          try discriminate.
        injection H as <- _. constructor; [exact T | exact (IH _ _ _ R)].
      * exact (IH _ _ _ H).
    + rewrite link_comprehension_raises in H by exact O. discriminate.
Qed.

(** X4: for every response of the search API, every link the Search
    Resolver returns is truthy: the result holds no [None] and no empty
    string, whatever the entries of the response bind ["link"] to. *)
Theorem returned_links_are_truthy :
  forall (E : env) (query : pyval) (api_key : str) (max_results : Z)
         (s : state),
  exists links,
    get_links_from_serpapi E query api_key max_results s
    = (Done links,
       with_log s
         [HttpGet serpapi_url (serpapi_params query api_key max_results)])
    /\ Forall (fun v => truthy v = true) links
    /\ ~ In PNone links /\ ~ In (PStr []) links.
Proof.
  intros E query api_key n s. rewrite get_links_unfold.
  eexists. split; [reflexivity |].
  assert (Forall (fun v => truthy v = true)
            match fst (parse_answer E query api_key n s) with
            | Done l => l
            | _ => []
            end) as F.
  { destruct (parse_answer E query api_key n s) as [[l | e | ] s1] eqn:P;
      simpl; try constructor.
    unfold parse_answer in P. repeat step_in P.
    exact (link_comprehension_truthy _ _ P). }
  split; [exact F |].
  rewrite Forall_forall in F.
  split; intro Hin; apply F in Hin; discriminate.
Qed.

(** The theorem at a response whose entries bind "link" to a URL, to null,
    to an empty string and to nothing. *)
Lemma returned_links_are_truthy_witness :
  let rs := [Examples.hit "https://1.example";
             PDict [(lit "link", PNone)];
             PDict [(lit "link", PStr [])];
             Examples.hit_without_link] in
  let E := Examples.world (Examples.ok_json 200 (Examples.organic rs))
             Examples.unreachable Examples.offline in
  fst (run (get_links_from_serpapi E (PStr (lit "cafes")) (SERPAPI_KEY E) 5))
  = Done [PStr (lit "https://1.example")]
  /\ exists links,
       fst (run (get_links_from_serpapi E (PStr (lit "cafes"))
                   (SERPAPI_KEY E) 5)) = Done links
       /\ Forall (fun v => truthy v = true) links.
Proof.
  intros rs E. split; [reflexivity |].
  destruct (returned_links_are_truthy E (PStr (lit "cafes")) (SERPAPI_KEY E)
              5 initial) as [links [Hrun [F _]]].
  exists links. unfold run. rewrite Hrun. now split.
Defined.

Lemma firstn_length_app (A : Type) (l l' : list A) :
  firstn (List.length l) (l ++ l') = l.
Proof. induction l as [| x l IH]; [reflexivity |]. simpl. now rewrite IH. Qed.

(** X5: only the first [max_results] entries of the response count.  When
    those are JSON objects, the resolver returns their truthy links in
    order, whatever follows them in the response: further entries are not
    looked at, even entries that are not objects and would make the search
    fail inside the cut. *)
Theorem entries_beyond_cut_ignored :
  forall (E : env) (query : pyval) (api_key : str) (max_results : Z)
         (s : state) (resp : response) (data : pyval)
         (rs extra : list pyval),
    requests_get E serpapi_url (serpapi_params query api_key max_results)
    = Ok resp ->
    raise_for_status resp = Ok tt ->
    json resp = Ok data ->
    dict_get data (lit "organic_results") (PList []) = Ok (PList (rs ++ extra)) ->
    Z.of_nat (List.length rs) = max_results ->
    forallb is_object rs = true ->
    get_links_from_serpapi E query api_key max_results s
    = (Done (filter truthy (map link_of rs)),
       with_log s
         [HttpGet serpapi_url (serpapi_params query api_key max_results)]).
Proof.
  intros E query api_key n s resp data rs extra H1 H2 H3 H4 Hn Hobj.
  rewrite get_links_unfold. f_equal. unfold parse_answer.
  rewrite (bind_Ok _ _ H1), (bind_Ok _ _ H2), (bind_Ok _ _ H3),
    (bind_Ok _ _ H4).
  rewrite (bind_Ok (r := slice (PList (rs ++ extra)) n) _ _ eq_refl).
  rewrite (bind_Ok (r := iterate (PList (slice_to n (rs ++ extra)))) _ _ eq_refl).
  assert (slice_to n (rs ++ extra) = rs) as ->.
  { unfold slice_to. destruct (0 <=? n)%Z eqn:Z0; [| lia].
    rewrite <- Hn, Nat2Z.id. apply firstn_length_app. }
  now rewrite link_comprehension.
Qed.

(** The theorem at a response of five results followed by an entry that is
    not an object. *)
Lemma entries_beyond_cut_ignored_witness :
  let rs := [Examples.hit "https://1.example"; Examples.hit "https://2.example";
             Examples.hit "https://3.example"; Examples.hit "https://4.example";
             Examples.hit "https://5.example"] in
  let body := Examples.organic (rs ++ [PInt 42]) in
  let E := Examples.world (Examples.ok_json 200 body)
             Examples.unreachable Examples.offline in
  Z.of_nat (List.length rs) = 5%Z
  /\ forallb is_object rs = true
  /\ fst (run (get_links_from_serpapi E (PStr (lit "cafes")) (SERPAPI_KEY E) 5))
     = Done (filter truthy (map link_of rs)).
Proof.
  intros rs body E. split; [reflexivity |]. split; [reflexivity |].
  unfold run.
  rewrite (@entries_beyond_cut_ignored E (PStr (lit "cafes")) (SERPAPI_KEY E) 5
             initial {| status_code := 200; json := Ok body |} body
             rs [PInt 42] eq_refl eq_refl eq_refl eq_refl eq_refl eq_refl).
  reflexivity.
Defined.

(* ================================================================== *)
(** * The calls of a request *)
(* ================================================================== *)

Lemma calls_app (kind : event -> bool) (a b : list event) :
  calls kind (a ++ b) = calls kind a + calls kind b.
Proof. unfold calls. now rewrite filter_app, length_app. Qed.

Lemma calls_navigations (urls : list pyval) :
  calls is_navigation (map ChromeGet urls) = List.length urls.
Proof.
  induction urls as [| u l IH]; [reflexivity |].
  unfold calls in *. simpl. now rewrite IH.
Qed.

Lemma calls_not_navigation (kind : event -> bool) (urls : list pyval) :
  (forall u, kind (ChromeGet u) = false) ->
  calls kind (map ChromeGet urls) = 0.
Proof.
  intro H. induction urls as [| u l IH]; [reflexivity |].
  unfold calls in *. simpl. now rewrite H.
Qed.

(** In every outcome the URL loop has navigated to a prefix of [links]. *)
Lemma url_loop_visits (E : env) (t : Z) (links : list pyval) :
  forall s, exists visited rest,
    links = visited ++ rest
    /\ log (snd (for_ links (scrape_url E t) s))
       = log s ++ map ChromeGet visited.
Proof.
  induction links as [| url links IH]; intro s.
  - exists [], []. simpl. now rewrite app_nil_r.
  - cbn [for_]. destruct (scrape_url_effect E t url s) as [txt [Hs _]].
    destruct (scrape_url E t url s) as [[[] | e | ] s1];
      simpl in Hs; subst s1.
    + destruct (IH (navigated s url txt)) as [visited [rest [-> Hl]]].
      exists (url :: visited), rest. rewrite Hl. simpl.
      now rewrite <- app_assoc.
    + exists [url], links. now split.
    + destruct (IH (navigated s url txt)) as [visited [rest [-> Hl]]].
      exists (url :: visited), rest. rewrite Hl. simpl.
      now rewrite <- app_assoc.
Qed.

(** An exception that leaves the URL loop was raised by a navigation and
    is not a WebDriver exception. *)
Lemma url_loop_raised (E : env) (t : Z) (links : list pyval) :
  forall s e s',
    for_ links (scrape_url E t) s = (Raised e, s') ->
    is_WebDriverException e = false
    /\ exists n url, chrome_get E t n url = Err e.
Proof.
  induction links as [| url links IH]; intros s e s' H; [discriminate |].
  cbn [for_] in H. destruct (scrape_url_effect E t url s) as [txt [_ He]].
  destruct (scrape_url E t url s) as [[[] | e0 | ] s1].
  - exact (IH _ _ _ H).
  - injection H as <- _. destruct (He e0 eq_refl) as [H1 H2].
    split; [exact H2 | eauto].
  - exact (IH _ _ _ H).
Qed.

(** The calls of the extractor in every outcome: the launch, navigations to
    a prefix of the links, and the release when the loop ended normally. *)
Lemma scrape_links_calls (E : env) (links : list pyval) (t : Z) (s : state) :
  exists visited rest tl,
    links = visited ++ rest
    /\ log (snd (scrape_links E links t s))
       = log s ++ ChromeLaunch :: map ChromeGet visited ++ tl
    /\ (tl = [] \/ tl = [ChromeQuit]).
Proof.
  destruct (session_cases E t) as [R | [e R]].
  - rewrite (@scrape_links_unfold E links t s R).
    destruct (url_loop_visits E t links (launched s))
      as [visited [rest [Hl Hlog]]].
    destruct (for_ links (scrape_url E t) (launched s)) as [[[] | e | ] s1];
      simpl in Hlog; simpl.
    + exists visited, rest, [ChromeQuit]. rewrite Hlog.
      rewrite <- !app_assoc. auto.
    + exists visited, rest, []. rewrite Hlog, app_nil_r.
      rewrite <- !app_assoc. auto.
    + exists visited, rest, []. rewrite Hlog, app_nil_r.
      rewrite <- !app_assoc. auto.
  - exists [], links, []. rewrite (@scrape_links_refused E links t s e R).
    simpl. auto.
Qed.

Lemma found_links_bound (E : env) (query : pyval) (links : list pyval)
    (s s1 : state) :
  get_links_from_serpapi E query (SERPAPI_KEY E) 5 s = (Done links, s1) ->
  List.length links <= 5
  /\ s1 = with_log s [search_call E query 5].
Proof.
  rewrite get_links_unfold. intro H. injection H as <- <-.
  split; [| reflexivity].
  destruct (parse_answer E query (SERPAPI_KEY E) 5 s) as [[l | e | ] s'] eqn:P;
    simpl; try lia.
  apply parse_answer_length in P; lia.
Qed.

(** The calls of a request with a truthy question: the search, then
    possibly a browser session over at most five of the links found, then
    possibly one call to the model. *)
Lemma handle_query_calls (E : env) (d : list (str * pyval)) :
  truthy (question_of d) = true ->
  exists session post,
    log (snd (run (handle_query E (PDict d))))
    = search_call E (question_of d) 5 :: session ++ post
    /\ (session = []
        \/ exists visited tl,
             session = ChromeLaunch :: map ChromeGet visited ++ tl
             /\ List.length visited <= 5
             /\ (tl = [] \/ tl = [ChromeQuit]))
    /\ (post = [] \/ exists scraped,
                       post = [model_call E (question_of d) scraped
                                 (GEMINI_API_KEY E)]).
Proof.
  intro T.
  destruct (get_links_from_serpapi E (question_of d) (SERPAPI_KEY E) 5 initial)
    as [[links | e | ] s1] eqn:G;
    try (rewrite get_links_unfold in G; discriminate).
  rewrite (handle_query_started E d T G).
  destruct (found_links_bound E _ _ G) as [Hlen ->].
  destruct links as [| l ls].
  - exists [], []. simpl. auto.
  - set (s1 := with_log initial _).
    destruct (scrape_links_calls E (l :: ls) 7 s1)
      as [visited [rest [tl [Hl [Hlog Htl]]]]].
    assert (List.length visited <= 5) as Hv.
    { rewrite Hl, length_app in Hlen. lia. }
    assert (ChromeLaunch :: map ChromeGet visited ++ tl = []
            \/ exists visited0 tl0,
                 ChromeLaunch :: map ChromeGet visited ++ tl
                 = ChromeLaunch :: map ChromeGet visited0 ++ tl0
                 /\ List.length visited0 <= 5
                 /\ (tl0 = [] \/ tl0 = [ChromeQuit])) as Hsession.
    { right. exists visited, tl. auto. }
    destruct (scrape_links E (l :: ls) 7 s1) as [[scraped | e | ] s2];
      cbn [snd] in Hlog.
    + destruct (negb (nonempty (strip scraped))).
      * exists (ChromeLaunch :: map ChromeGet visited ++ tl), [].
        cbn [snd]. rewrite Hlog, app_nil_r. auto.
      * rewrite query_gemini_unfold. cbn [snd with_log log]. rewrite Hlog.
        exists (ChromeLaunch :: map ChromeGet visited ++ tl),
          [model_call E (question_of d) scraped (GEMINI_API_KEY E)].
        split; [reflexivity | split; eauto].
    + exists (ChromeLaunch :: map ChromeGet visited ++ tl), [].
      cbn [snd]. rewrite Hlog, app_nil_r. auto.
    + exists (ChromeLaunch :: map ChromeGet visited ++ tl), [].
      cbn [snd]. rewrite Hlog, app_nil_r. auto.
Qed.

Ltac count_calls :=
  unfold search_call, model_call;
  repeat rewrite calls_app;
  rewrite ?calls_navigations;
  try rewrite (calls_not_navigation is_search) by reflexivity;
  try rewrite (calls_not_navigation is_launch) by reflexivity;
  try rewrite (calls_not_navigation is_quit) by reflexivity;
  try rewrite (calls_not_navigation is_model_post) by reflexivity;
  cbn; lia.

(** X6: whatever the outside world answers and however the request ends, a
    request makes at most one search call, launches at most one browser,
    navigates to at most five pages, quits the browser at most once and
    calls the language model at most once. *)
Theorem request_call_budget :
  forall (E : env) (data : pyval),
    let evs := log (snd (run (handle_query E data))) in
    calls is_search evs <= 1
    /\ calls is_launch evs <= 1
    /\ calls is_navigation evs <= 5
    /\ calls is_quit evs <= 1
    /\ calls is_model_post evs <= 1.
Proof.
  intros E data evs. subst evs.
  destruct data as [ | | | | | | d];
    try (cbn; repeat split; lia).
  destruct (truthy (question_of d)) eqn:T.
  - destruct (handle_query_calls E d T) as [session [post [-> [Hs Hp]]]].
    change (search_call E (question_of d) 5 :: session ++ post)
      with ([search_call E (question_of d) 5] ++ session ++ post).
    destruct Hs as [-> | [visited [tl [-> [Hv Htl]]]]];
      destruct Hp as [-> | [scraped ->]].
    + repeat split; count_calls.
    + repeat split; count_calls.
    + change (ChromeLaunch :: map ChromeGet visited ++ tl)
        with ([ChromeLaunch] ++ map ChromeGet visited ++ tl).
      destruct Htl as [-> | ->]; repeat split; count_calls.
    + change (ChromeLaunch :: map ChromeGet visited ++ tl)
        with ([ChromeLaunch] ++ map ChromeGet visited ++ tl).
      destruct Htl as [-> | ->]; repeat split; count_calls.
  - rewrite handle_query_rejects by exact T. cbn. repeat split; lia.
Qed.

Lemma scrape_links_well_behaved (E : env) (links : list pyval) (t : Z)
    (s : state) :
  browser_well_behaved E t ->
  exists txt st, scrape_links E links t s = (Done txt, st).
Proof.
  intros [HL [HT Hnav]].
  rewrite (@scrape_links_unfold E links t s (conj HL HT)).
  pose proof (url_loop_returns E t links Hnav (launched s)) as HD.
  destruct (for_ links (scrape_url E t) (launched s)) as [[[] | e | ] s1];
    simpl in HD; try discriminate.
  eauto.
Qed.

(** X7: no failure of the search API or of the language model makes the
    handler raise.  When the browser starts, accepts its page-load timeout
    and fails its navigations only with WebDriver exceptions (timeouts
    included), then for every parsed body that is a JSON object and
    whatever the search API and the language model return or raise, the
    run of the handler ends with a reply and not with an exception: the 400
    missing-question reply when the question is falsy, a 200 reply
    otherwise.  The statement is about runs whose outbound calls come back:
    a call that never returns ([requests.post] in [query_gemini] has no
    timeout) has no counterpart in the embedding. *)
Theorem well_behaved_browser_never_raises :
  forall (E : env) (d : list (str * pyval)),
    browser_well_behaved E 7 ->
    exists r st,
      run (handle_query E (PDict d)) = (Done r, st)
      /\ (truthy (question_of d) = false -> r = missing_question)
      /\ (truthy (question_of d) = true -> reply_status r = 200%Z).
Proof.
  intros E d W. destruct (truthy (question_of d)) eqn:T.
  - rewrite (handle_query_started E d T
               (get_links_unfold E (question_of d) (SERPAPI_KEY E) 5 initial)).
    set (s1 := with_log initial _).
    destruct (match fst (parse_answer E (question_of d) (SERPAPI_KEY E) 5 initial)
              with Done l => l | _ => [] end) as [| l ls].
    + exists no_search_results, s1. repeat split; discriminate.
    + destruct (@scrape_links_well_behaved E (l :: ls) 7 s1 W)
        as [scraped [s2 ->]].
      destruct (negb (nonempty (strip scraped))).
      * exists no_content_extracted, s2. repeat split; discriminate.
      * rewrite query_gemini_unfold. eexists. eexists.
        split; [reflexivity |]. split; [discriminate | reflexivity].
  - rewrite handle_query_rejects by exact T.
    exists missing_question, initial. repeat split; discriminate.
Qed.

(** The theorem at a world whose pages all time out. *)
Lemma well_behaved_browser_never_raises_witness :
  let found := Examples.ok_json 200
                 (Examples.organic [Examples.hit "https://a.example"]) in
  let E := Examples.world found Examples.unreachable Examples.offline in
  browser_well_behaved E 7
  /\ exists r st,
       run (handle_query E (Examples.ask (PStr (lit "best cafes"))))
       = (Done r, st)
       /\ reply_status r = 200%Z.
Proof.
  intros found E.
  assert (browser_well_behaved E 7) as W.
  { split; [reflexivity |]. split; [reflexivity |].
    intros n url e H. now injection H as <-. }
  split; [exact W |].
  destruct (@well_behaved_browser_never_raises E
              [(lit "question", PStr (lit "best cafes"))] W)
    as [r [st [Hrun [_ H200]]]].
  exists r, st. split; [exact Hrun | now apply H200].
Defined.

(** X8: once the request body has been parsed, the handler raises in four
    situations only: the body is not a JSON object ([AttributeError], before
    any outbound call), the browser cannot be launched, the launched
    browser refuses its page-load timeout, or a navigation raises an
    exception that is not a WebDriver one.  Failures of the search API and
    of the language model never make it raise.  When it raises, the
    language model has not been called. *)
Theorem handle_query_failure_causes :
  forall (E : env) (data : pyval) (e : exn) (st : state),
    run (handle_query E data) = (Raised e, st) ->
    ((is_object data = false /\ e = AttributeError /\ st = initial)
     \/ webdriver_Chrome E = Err e
     \/ (webdriver_Chrome E = Ok tt /\ set_page_load_timeout E 7 = Err e)
     \/ (is_WebDriverException e = false
         /\ exists n url, chrome_get E 7 n url = Err e))
    /\ calls is_model_post (log st) = 0.
Proof.
  intros E data e st H.
  destruct data as [ | | | | | | d];
    try (injection H as <- <-; split; [left; now repeat split | reflexivity]).
  destruct (truthy (question_of d)) eqn:T;
    [| rewrite handle_query_rejects in H by exact T; discriminate].
  rewrite (handle_query_started E d T
             (get_links_unfold E (question_of d) (SERPAPI_KEY E) 5 initial)) in H.
  set (s1 := with_log initial _) in H.
  destruct (match fst (parse_answer E (question_of d) (SERPAPI_KEY E) 5 initial)
            with Done l => l | _ => [] end) as [| l ls]; [discriminate |].
  destruct (session_cases E 7) as [R | [e0 R]].
  - rewrite (@scrape_links_unfold E (l :: ls) 7 s1 R) in H.
    destruct (url_loop_visits E 7 (l :: ls) (launched s1))
      as [visited [rest [_ Hlog]]].
    destruct (for_ (l :: ls) (scrape_url E 7) (launched s1))
      as [[[] | e1 | ] s2] eqn:L.
    + destruct (negb (nonempty (strip (extracted s2)))); [discriminate |].
      rewrite query_gemini_unfold in H. discriminate.
    + injection H as <- <-. split.
      * right. right. right. exact (url_loop_raised E 7 (l :: ls) _ L).
      * simpl in Hlog. rewrite Hlog.
        change (calls is_model_post
                  ([search_call E (question_of d) 5; ChromeLaunch]
                   ++ map ChromeGet visited) = 0).
        count_calls.
    + discriminate.
  - rewrite (@scrape_links_refused E (l :: ls) 7 s1 e0 R) in H.
    injection H as <- <-. split; [| reflexivity].
    destruct R as [R | R]; [right; now left | right; right; now left].
Qed.

(** The theorem at a request whose first page makes the driver lose its
    connection. *)
Lemma handle_query_failure_causes_witness :
  let found := Examples.ok_json 200
                 (Examples.organic [Examples.hit "https://a.example"]) in
  let E := Examples.world found (fun _ _ => Err ConnectionError)
             Examples.offline in
  let data := Examples.ask (PStr (lit "best cafes")) in
  fst (run (handle_query E data)) = Raised ConnectionError
  /\ is_WebDriverException ConnectionError = false
  /\ calls is_model_post (log (snd (run (handle_query E data)))) = 0.
Proof.
  intros found E data.
  split; [reflexivity |]. split; [reflexivity |].
  destruct (run (handle_query E data)) as [out st] eqn:R.
  assert (out = Raised ConnectionError) as ->
    by (change out with (fst (out, st)); now rewrite <- R).
  exact (proj2 (@handle_query_failure_causes E data ConnectionError st R)).
Defined.

(** X9: when the search found links and the browser cannot be launched,
    the request fails: the exception of the launch propagates out of the
    handler, after the search call and the launch attempt and before any
    navigation or call to the language model. *)
Theorem browser_launch_failure_fails_request :
  forall (E : env) (d : list (str * pyval)) (links : list pyval)
         (s1 : state) (e : exn),
    truthy (question_of d) = true ->
    get_links_from_serpapi E (question_of d) (SERPAPI_KEY E) 5 initial
    = (Done links, s1) ->
    links <> [] ->
    webdriver_Chrome E = Err e ->
    run (handle_query E (PDict d))
    = (Raised e,
       {| extracted := []; visits := 0;
          log := [search_call E (question_of d) 5; ChromeLaunch] |}).
Proof.
  intros E d links s1 e T G Hne HL.
  rewrite (handle_query_started E d T G).
  destruct (found_links_bound E _ _ G) as [_ ->].
  destruct links as [| l ls]; [contradiction |].
  now rewrite (@scrape_links_refused E (l :: ls) 7 _ e (or_introl HL)).
Qed.

(** The theorem at a world without a browser. *)
Lemma browser_launch_failure_fails_request_witness :
  let found := Examples.ok_json 200
                 (Examples.organic [Examples.hit "https://a.example"]) in
  let E := without_browser
             (Examples.world found Examples.unreachable Examples.offline)
             WebDriverException in
  let d := [(lit "question", PStr (lit "best cafes"))] in
  let links := [PStr (lit "https://a.example")] in
  truthy (question_of d) = true
  /\ get_links_from_serpapi E (question_of d) (SERPAPI_KEY E) 5 initial
     = (Done links, with_log initial [search_call E (question_of d) 5])
  /\ links <> []
  /\ webdriver_Chrome E = Err WebDriverException
  /\ fst (run (handle_query E (PDict d))) = Raised WebDriverException.
Proof.
  intros found E d links.
  assert (links <> []) as Hne by discriminate.
  split; [reflexivity |]. split; [reflexivity |]. split; [exact Hne |].
  split; [reflexivity |].
  now rewrite (@browser_launch_failure_fails_request E d links _
                 WebDriverException eq_refl eq_refl Hne eq_refl).
Defined.

(** X10: the stages compose: when the search finds links and the extractor
    returns text that is not empty, the handler calls the language model
    with the question and exactly that text, and answers 200 with what
    [query_gemini] returns; the outbound calls of the request are, in order,
    the search, the launch, one navigation per link, the release of the
    browser and the call to the model. *)
Theorem full_pipeline_answer :
  forall (E : env) (d : list (str * pyval)) (links : list pyval)
         (s1 s2 : state) (scraped : str),
    truthy (question_of d) = true ->
    get_links_from_serpapi E (question_of d) (SERPAPI_KEY E) 5 initial
    = (Done links, s1) ->
    links <> [] ->
    scrape_links E links 7 s1 = (Done scraped, s2) ->
    scraped <> [] ->
    exists answer s3,
      query_gemini E (question_of d) scraped (GEMINI_API_KEY E) s2
      = (Done answer, s3)
      /\ run (handle_query E (PDict d))
         = (Done {| reply_status := 200; reply_answer := answer |}, s3)
      /\ log s3
         = search_call E (question_of d) 5
           :: ChromeLaunch
           :: map ChromeGet links
           ++ [ChromeQuit;
               model_call E (question_of d) scraped (GEMINI_API_KEY E)].
Proof.
  intros E d links s1 s2 scraped T G Hne S Hs.
  rewrite (handle_query_started E d T G).
  destruct links as [| l ls]; [contradiction |].
  rewrite S.
  assert (strip scraped <> []) as Hink.
  { intro B. apply strip_blank_iff in B.
    destruct (scrape_links_fragmentary E (l :: ls) 7 s1 S) as [-> | [I _]];
      [contradiction | congruence]. }
  destruct (strip scraped) as [| c rest]; [contradiction |]. cbn [nonempty negb].
  rewrite query_gemini_unfold. eexists. eexists.
  split; [reflexivity |]. split; [reflexivity |].
  cbn [with_log log]. rewrite (scrape_links_returned E (l :: ls) 7 s1 S).
  destruct (found_links_bound E _ _ G) as [_ ->].
  cbn [with_log log initial app]. now rewrite <- app_assoc.
Qed.

(** The theorem at a request with one link, a readable page and a model
    that answers. *)
Lemma full_pipeline_answer_witness :
  let found := Examples.ok_json 200
                 (Examples.organic [Examples.hit "https://a.example"]) in
  let reply := Examples.ok_json 200
                 (Examples.envelope (PStr (lit " Try Cafe Uno. "))) in
  let E := Examples.world found (fun _ _ => Ok flaky_page) reply in
  let d := [(lit "question", PStr (lit "best cafes"))] in
  let links := [PStr (lit "https://a.example")] in
  let s1 := with_log initial [search_call E (question_of d) 5] in
  let scraped := lit "Title" ++ newline in
  let s2 := {| extracted := scraped; visits := 1;
               log := [search_call E (question_of d) 5; ChromeLaunch;
                       ChromeGet (PStr (lit "https://a.example"));
                       ChromeQuit] |} in
  truthy (question_of d) = true
  /\ get_links_from_serpapi E (question_of d) (SERPAPI_KEY E) 5 initial
     = (Done links, s1)
  /\ links <> []
  /\ scrape_links E links 7 s1 = (Done scraped, s2)
  /\ scraped <> []
  /\ fst (run (handle_query E (PDict d)))
     = Done {| reply_status := 200; reply_answer := lit "Try Cafe Uno." |}.
Proof.
  intros found reply E d links s1 scraped s2.
  assert (links <> []) as Hne by discriminate.
  assert (scraped <> []) as Hs by discriminate.
  split; [reflexivity |]. split; [reflexivity |]. split; [exact Hne |].
  split; [reflexivity |]. split; [exact Hs |].
  destruct (@full_pipeline_answer E d links s1 s2 scraped
              eq_refl eq_refl Hne eq_refl Hs)
    as [answer [s3 [Hq [Hrun _]]]].
  rewrite Hrun. cbn [fst]. f_equal. f_equal.
  assert (fst (query_gemini E (question_of d) scraped (GEMINI_API_KEY E) s2)
          = Done answer) as Ha by now rewrite Hq.
  now injection Ha as <-.
Defined.

(** X11: the question need not be a string: every truthy JSON value bound
    to ["question"] (a number, [true], a non-empty array or object) passes
    the check, and the search call is made with that value as its [q]
    parameter, asking for 5 results. *)
Theorem truthy_question_of_any_type_is_searched :
  forall (E : env) (d : list (str * pyval)) (v : pyval),
    lookup (lit "question") d = Some v ->
    truthy v = true ->
    (exists later,
        log (snd (run (handle_query E (PDict d))))
        = HttpGet serpapi_url (serpapi_params v (SERPAPI_KEY E) 5) :: later)
    /\ lookup (lit "q") (serpapi_params v (SERPAPI_KEY E) 5) = Some v
    /\ lookup (lit "num") (serpapi_params v (SERPAPI_KEY E) 5) = Some (PInt 5).
Proof.
  intros E d v Hq T.
  assert (question_of d = v) as Q by (unfold question_of; now rewrite Hq).
  split; [| split; reflexivity].
  rewrite <- Q in T. destruct (handle_query_searches E d T) as [later H].
  exists later. now rewrite H, Q.
Qed.

(** The theorem at the body [{"question": 42}]. *)
Lemma truthy_question_of_any_type_is_searched_witness :
  let E := Examples.world Examples.offline Examples.unreachable Examples.offline in
  lookup (lit "question") [(lit "question", PInt 42)] = Some (PInt 42)
  /\ truthy (PInt 42) = true
  /\ exists later,
       log (snd (run (handle_query E (Examples.ask (PInt 42)))))
       = HttpGet serpapi_url (serpapi_params (PInt 42) (SERPAPI_KEY E) 5)
         :: later.
Proof.
  intro E. split; [reflexivity |]. split; [reflexivity |].
  exact (proj1 (@truthy_question_of_any_type_is_searched E
                  [(lit "question", PInt 42)] (PInt 42) eq_refl eq_refl)).
Defined.

(* ================================================================== *)
(** * The direct endpoint *)
(* ================================================================== *)

(** With a truthy question the direct endpoint makes its one call and
    answers 200, with the generated text or with the marked error. *)
Lemma generate_gemini_answer_unfold (E : env) (d : list (str * pyval)) :
  truthy (question_of d) = true ->
  run (generate_gemini_answer E (PDict d)) =
  (Done {| reply_status := 200;
           reply_answer :=
             match direct_answer E (question_of d) with
             | Err e => gemini_request_failed E e
             | Ok resp =>
                 match raise_for_status resp with
                 | Err e => gemini_request_failed E e
                 | Ok _ =>
                     match json resp with
                     | Err e => gemini_request_failed E e
                     | Ok data =>
                         match generated_text data with
                         | Ok text => text
                         | Err e => gemini_request_failed E e
                         end
                     end
                 end
             end |},
   with_log initial [direct_call E (question_of d)]).
Proof.
  intro T. unfold run, generate_gemini_answer.
  unfold bind at 1. cbn [dict_get lift ret]. fold (question_of d).
  rewrite T. cbn [negb].
  unfold try_except, bind, record_call, direct_answer, direct_call.
  destruct (requests_post E (gemini_url (GEMINI_API_KEY E))
              (direct_payload (question_of d))) as [resp | e0];
    [| reflexivity].
  cbn [lift ret].
  destruct (raise_for_status resp) as [[] | e1]; [| reflexivity].
  cbn [lift ret].
  destruct (json resp) as [data | e2]; [| reflexivity].
  cbn [lift ret].
  now destruct (generated_text data).
Qed.

(** X12: the direct endpoint [/api/gemini] never raises on a body that is a
    JSON object.  A falsy or absent question gets the 400 missing-question
    reply without any outbound call.  A truthy question makes exactly one
    call to the model and always gets a 200 reply: the marked error when
    the request raised or came back with a 4xx or 5xx status, and the
    stripped generated text when the status is any other one and the
    envelope holds the text. *)
Theorem direct_endpoint_always_answers :
  forall (E : env) (d : list (str * pyval)),
  exists r evs,
    run (generate_gemini_answer E (PDict d)) = (Done r, with_log initial evs)
    /\ (truthy (question_of d) = false -> r = missing_question /\ evs = [])
    /\ (truthy (question_of d) = true ->
        evs = [direct_call E (question_of d)]
        /\ reply_status r = 200%Z
        /\ (forall e, direct_answer E (question_of d) = Err e ->
              reply_answer r = gemini_request_failed E e)
        /\ (forall resp, direct_answer E (question_of d) = Ok resp ->
              error_status (status_code resp) = true ->
              reply_answer r
              = gemini_request_failed E (HTTPError (status_code resp)))
        /\ (forall resp data text,
              direct_answer E (question_of d) = Ok resp ->
              error_status (status_code resp) = false ->
              json resp = Ok data ->
              envelope_text data = Ok (PStr text) ->
              reply_answer r = strip text)).
Proof.
  intros E d. destruct (truthy (question_of d)) eqn:T.
  - rewrite (generate_gemini_answer_unfold E d T).
    eexists. exists [direct_call E (question_of d)].
    split; [reflexivity |]. split; [discriminate |]. intros _.
    split; [reflexivity |]. split; [reflexivity |]. cbn [reply_answer].
    split; [| split].
    + intros e H. now rewrite H.
    + intros resp H St. rewrite H. unfold raise_for_status.
      unfold error_status in St. now rewrite St.
    + intros resp data text H St J G. rewrite H. unfold raise_for_status.
      unfold error_status in St. rewrite St, J.
      rewrite generated_text_strip, G. reflexivity.
  - exists missing_question, [].
    split; [| split; [auto | discriminate]].
    unfold run, generate_gemini_answer, bind.
    cbn [dict_get lift ret]. fold (question_of d). now rewrite T.
Qed.

(** The theorem at a model that is overloaded. *)
Lemma direct_endpoint_always_answers_witness :
  let busy := Ok {| status_code := 503; json := Err JSONDecodeError |} in
  let E := Examples.world Examples.offline Examples.unreachable busy in
  let d := [(lit "question", PStr (lit "hello"))] in
  truthy (question_of d) = true
  /\ exists r st,
       run (generate_gemini_answer E (PDict d)) = (Done r, st)
       /\ reply_status r = 200%Z
       /\ reply_answer r = gemini_request_failed E (HTTPError 503).
Proof.
  intros busy E d. split; [reflexivity |].
  destruct (direct_endpoint_always_answers E d)
    as [r [evs [Hrun [_ Htruthy]]]].
  destruct (Htruthy eq_refl) as [_ [H200 [_ [Herr _]]]].
  exists r, (with_log initial evs). split; [exact Hrun |].
  split; [exact H200 |].
  exact (Herr {| status_code := 503; json := Err JSONDecodeError |}
              eq_refl eq_refl).
Defined.

(** X13: the two endpoints do not agree on what a successful answer of the
    model is.  For a response whose status is neither 200 nor a 4xx or 5xx
    one (201, 204, 3xx ...) and whose envelope holds a text, [query_gemini]
    returns the marked error with the status, while the direct endpoint
    returns the stripped text. *)
Theorem endpoints_disagree_on_success_status :
  forall (E : env) (d : list (str * pyval)) (context : str)
         (resp : response) (data : pyval) (text : str) (s : state),
    truthy (question_of d) = true ->
    model_answer E (question_of d) context (GEMINI_API_KEY E) = Ok resp ->
    direct_answer E (question_of d) = Ok resp ->
    status_code resp <> 200%Z ->
    error_status (status_code resp) = false ->
    json resp = Ok data ->
    envelope_text data = Ok (PStr text) ->
    fst (query_gemini E (question_of d) context (GEMINI_API_KEY E) s)
    = Done (gemini_error (status_code resp))
    /\ fst (run (generate_gemini_answer E (PDict d)))
       = Done {| reply_status := 200; reply_answer := strip text |}.
Proof.
  intros E d context resp data text s T Hm Hd St Er J G. split.
  - rewrite query_gemini_unfold, Hm. apply Z.eqb_neq in St.
    now rewrite St.
  - rewrite (generate_gemini_answer_unfold E d T), Hd.
    unfold raise_for_status. unfold error_status in Er. rewrite Er, J.
    now rewrite generated_text_strip, G.
Qed.

(** The theorem at a model that answers 201 with a text. *)
Lemma endpoints_disagree_on_success_status_witness :
  let created := Examples.ok_json 201
                   (Examples.envelope (PStr (lit " Hello. "))) in
  let E := Examples.world Examples.offline Examples.unreachable created in
  let d := [(lit "question", PStr (lit "hello"))] in
  truthy (question_of d) = true
  /\ error_status 201 = false
  /\ fst (run (query_gemini E (question_of d) (lit "context")
                 (GEMINI_API_KEY E)))
     = Done (cross_mark ++ lit " Gemini Error: 201")
  /\ fst (run (generate_gemini_answer E (PDict d)))
     = Done {| reply_status := 200; reply_answer := lit "Hello." |}.
Proof.
  intros created E d. split; [reflexivity |]. split; [reflexivity |].
  destruct (@endpoints_disagree_on_success_status E d (lit "context")
              {| status_code := 201;
                 json := Ok (Examples.envelope (PStr (lit " Hello. "))) |}
              (Examples.envelope (PStr (lit " Hello. "))) (lit " Hello. ")
              initial eq_refl eq_refl eq_refl)
    as [H1 H2]; try reflexivity; [discriminate |].
  split; [exact H1 | exact H2].
Defined.
